(** * Club-management backend: guards, lifecycle handlers and derived writes

    A shallow embedding of the Express / MongoDB server of the repository
    (the [run] function with its middlewares and route handlers) together
    with the properties that the specification states about it.

    - JavaScript objects (request bodies, stored documents, query filters,
      [$set] documents) are finite maps from field names to values.
    - A collection is the list of its documents in natural order; [findOne]
      and [updateOne] act on the first document that matches.
    - A handler is a function from the request and the database to a
      response and the new database; an exception thrown inside a [try]
      block keeps the writes made before it. *)

From Stdlib Require Import ZArith NArith Ascii String.
From stdpp Require Import base option strings gmap list.

Open Scope string_scope.

(** ** Values and documents *)

(** Field values.  Numbers are the integer-valued ones; arrays are arrays of
    strings (the only arrays the server itself writes).  A missing property
    ([undefined]) is the [None] of a lookup. *)
Inductive value : Type :=
| VNull
| VBool (b : bool)
| VNum (z : Z)
| VStr (s : string)
| VDate (t : nat)
| VOid (n : N)
| VArr (l : list string).

#[global] Instance value_eq_dec : EqDecision value.
Proof. solve_decision. Defined.

Abbreviation doc := (gmap string value).

(** JavaScript truthiness of [obj.k]. *)
Definition truthy (o : option value) : bool :=
  match o with
  | None => false
  | Some VNull => false
  | Some (VBool b) => b
  | Some (VNum z) => negb (Z.eqb z 0)
  | Some (VStr s) => negb (String.eqb s "")
  | Some (VDate _) => true
  | Some (VOid _) => true
  | Some (VArr _) => true
  end.

(** [x === 'lit'] for a string literal. *)
Definition is_str (lit : string) (o : option value) : bool :=
  match o with
  | Some (VStr s) => String.eqb s lit
  | _ => false
  end.

(** The driver serialises an [undefined] property as [null]. *)
Definition bson (o : option value) : value := default VNull o.

(** ** Query filters *)

(** One equality condition [{k: q}] against the stored field: [null] also
    matches a missing field, and a string matches an array that contains
    it. *)
Definition field_matches (stored : option value) (q : value) : bool :=
  match q with
  | VNull =>
      match stored with
      | None | Some VNull => true
      | Some _ => false
      end
  | VStr s =>
      match stored with
      | Some (VStr s') => String.eqb s' s
      | Some (VArr l) => bool_decide (s ∈ l)
      | _ => false
      end
  | _ => bool_decide (stored = Some q)
  end.

Definition matches (f : doc) (d : doc) : bool :=
  bool_decide (map_Forall (λ k q, field_matches (d !! k) q = true) f).

Definition findOne_in (f : doc) (c : list doc) : option doc :=
  List.find (matches f) c.

(** ** Updates *)

Record UpdateResult : Type := mkUpdateResult {
  matchedCount : nat;
  modifiedCount : nat;
  upsertedCount : nat;
  upsertedId : option N
}.

(** [$set] overrides the named fields and keeps the others; an empty [$set]
    changes nothing. *)
Definition apply_set (s : doc) (d : doc) : doc := s ∪ d.

(** The document is modified when some field of [$set] is not already
    stored with that value. *)
Definition changes (s : doc) (d : doc) : bool :=
  negb (bool_decide (map_Forall (λ k v, d !! k = Some v) s)).

(** [_id] is immutable: setting it to another value is refused. *)
Definition id_conflict (s : doc) (d : doc) : bool :=
  match s !! "_id" with
  | Some v => negb (bool_decide (d !! "_id" = Some v))
  | None => false
  end.

Inductive outcome (A : Type) : Type :=
| Ok (a : A)
| Throw.
Arguments Ok {A} a.
Arguments Throw {A}.

(** Update of the first match; [None] when no document matches. *)
Fixpoint update_first (f s : doc) (c : list doc)
  : option (outcome (nat * list doc)) :=
  match c with
  | [] => None
  | d :: c' =>
      if matches f d then
        if id_conflict s d then Some Throw
        else Some (Ok (if changes s d then 1 else 0, apply_set s d :: c'))
      else
        match update_first f s c' with
        | None => None
        | Some Throw => Some Throw
        | Some (Ok (n, c'')) => Some (Ok (n, d :: c''))
        end
  end.

(** The document an upsert inserts: the equality fields of the filter, then
    [$set] and [$setOnInsert], and a fresh [_id]. *)
Definition upsert_doc (f s soi : doc) (fresh : N) : doc :=
  <["_id" := VOid fresh]> (soi ∪ (s ∪ f)).

(** [collection.updateOne(f, {$set: s, $setOnInsert: soi}, {upsert})]. *)
Definition updateOne_in (f s soi : doc) (upsert : bool) (fresh : N)
    (c : list doc) : outcome (UpdateResult * list doc) :=
  match update_first f s c with
  | Some Throw => Throw
  | Some (Ok (n, c')) => Ok (mkUpdateResult 1 n 0 None, c')
  | None =>
      if upsert then
        Ok (mkUpdateResult 0 0 1 (Some fresh),
           (c ++ [upsert_doc f s soi fresh])%list)
      else Ok (mkUpdateResult 0 0 0 None, c)
  end.

(** [collection.insertOne(d)]: a document without [_id] gets a fresh one; a
    supplied [_id] must not be an array nor be stored already (unique index
    on [_id]). *)
Definition insertOne_in (d : doc) (fresh : N) (c : list doc)
  : outcome (value * list doc) :=
  match d !! "_id" with
  | None | Some VNull =>
      Ok (VOid fresh, (c ++ [<["_id" := VOid fresh]> d])%list)
  | Some (VArr _) => Throw
  | Some v =>
      if existsb (λ d', bool_decide (d' !! "_id" = Some v)) c then Throw
      else Ok (v, (c ++ [d])%list)
  end.

(** ** ObjectId *)

Definition hex_digit (a : ascii) : option N :=
  let n := N_of_ascii a in
  if (48 <=? n)%N && (n <=? 57)%N then Some (n - 48)%N
  else if (97 <=? n)%N && (n <=? 102)%N then Some (n - 87)%N
  else if (65 <=? n)%N && (n <=? 70)%N then Some (n - 55)%N
  else None.

Fixpoint hex_value (acc : N) (s : string) : option N :=
  match s with
  | EmptyString => Some acc
  | String a s' =>
      match hex_digit a with
      | Some d => hex_value (16 * acc + d)%N s'
      | None => None
      end
  end.

(** [new ObjectId(s)] for a string: 24 hexadecimal characters, otherwise it
    throws. *)
Definition new_ObjectId (s : string) : outcome N :=
  if Nat.eqb (String.length s) 24 then
    match hex_value 0 s with
    | Some n => Ok n
    | None => Throw
    end
  else Throw.

(** ** The database and the handler monad *)

Inductive coll : Type :=
| Users | Clubs | Memberships | ClubManagers | ClubRoles.

Record DB : Type := mkDB {
  usersCollection : list doc;
  clubsCollection : list doc;
  membershipsCollection : list doc;
  clubManagersCollection : list doc;
  club_roles : list doc;
  next_oid : N
}.

Definition get_coll (n : coll) (db : DB) : list doc :=
  match n with
  | Users => usersCollection db
  | Clubs => clubsCollection db
  | Memberships => membershipsCollection db
  | ClubManagers => clubManagersCollection db
  | ClubRoles => club_roles db
  end.

Definition set_coll (n : coll) (c : list doc) (db : DB) : DB :=
  match n with
  | Users =>
      mkDB c (clubsCollection db) (membershipsCollection db)
        (clubManagersCollection db) (club_roles db) (next_oid db)
  | Clubs =>
      mkDB (usersCollection db) c (membershipsCollection db)
        (clubManagersCollection db) (club_roles db) (next_oid db)
  | Memberships =>
      mkDB (usersCollection db) (clubsCollection db) c
        (clubManagersCollection db) (club_roles db) (next_oid db)
  | ClubManagers =>
      mkDB (usersCollection db) (clubsCollection db) (membershipsCollection db)
        c (club_roles db) (next_oid db)
  | ClubRoles =>
      mkDB (usersCollection db) (clubsCollection db) (membershipsCollection db)
        (clubManagersCollection db) c (next_oid db)
  end.

Definition bump (db : DB) : DB :=
  mkDB (usersCollection db) (clubsCollection db) (membershipsCollection db)
    (clubManagersCollection db) (club_roles db) (N.succ (next_oid db)).

(** Code inside a [try] block: it returns or throws, and either way leaves a
    database behind. *)
Definition M (A : Type) : Type := DB → outcome A * DB.

Definition ret {A} (a : A) : M A := λ db, (Ok a, db).

Definition throw {A} : M A := λ db, (Throw, db).

Definition bind {A B} (m : M A) (k : A → M B) : M B :=
  λ db, match m db with
        | (Ok a, db') => k a db'
        | (Throw, db') => (Throw, db')
        end.

Declare Scope handler_scope.
Delimit Scope handler_scope with handler.
Notation "'let!' x ':=' m 'in' k" := (bind m (λ x, k))
  (at level 10, x name, m at level 100, k at level 200) : handler_scope.

Definition lift {A} (o : outcome A) : M A := λ db, (o, db).

Definition findOne (n : coll) (f : doc) : M (option doc) :=
  λ db, (Ok (findOne_in f (get_coll n db)), db).

Definition updateOne (n : coll) (f s soi : doc) (upsert : bool)
  : M UpdateResult :=
  λ db, match updateOne_in f s soi upsert (next_oid db) (get_coll n db) with
        | Throw => (Throw, db)
        | Ok (r, c') =>
            (Ok r, if Nat.eqb (upsertedCount r) 0 then set_coll n c' db
                   else bump (set_coll n c' db))
        end.

Definition insertOne (n : coll) (d : doc) : M value :=
  λ db, match insertOne_in d (next_oid db) (get_coll n db) with
        | Throw => (Throw, db)
        | Ok (v, c') => (Ok v, bump (set_coll n c' db))
        end.

(** ** Requests, responses, middlewares *)

Record Request : Type := mkRequest {
  authorization : option string;   (* req.headers.authorization *)
  params : gmap string string;     (* req.params *)
  body : doc;                      (* req.body *)
  user : option doc;               (* req.user, set by verifyFBToken *)
  now : nat                        (* what new Date() yields meanwhile *)
}.

Inductive payload : Type :=
| Message (m : string)
| Updated (r : UpdateResult)
| Inserted (insertedId : value)
| MessageResult (m : string) (r : UpdateResult).

Record Response : Type := mkResponse {
  status : nat;
  sent : payload
}.

Definition handler : Type := Request → DB → Response * DB.

(** [try { m } catch (error) { res.status(..).send(..) }] *)
Definition try_catch (m : M Response) (on_error : Response)
  : DB → Response * DB :=
  λ db, match m db with
        | (Ok r, db') => (r, db')
        | (Throw, db') => (on_error, db')
        end.

(** A middleware calls [next()] or replies itself; the ones of this server
    only read the database. *)
Inductive mw_result : Type :=
| Next (req : Request)
| Reply (r : Response).

Definition middleware : Type := Request → DB → mw_result.

(** [app.METHOD(path, mw1, ..., mwn, handler)] *)
Fixpoint run_route (mws : list middleware) (h : handler)
    (req : Request) (db : DB) : Response * DB :=
  match mws with
  | [] => h req db
  | mw :: rest =>
      match mw req db with
      | Next req' => run_route rest h req' db
      | Reply r => (r, db)
      end
  end.

(** A path parameter of a matched route.  Express dispatches to the handler
    of a pattern with [:k] only when the segment is there, so the default is
    not observed on a routed request. *)
Definition route_param (req : Request) (k : string) : string :=
  default "" (params req !! k).

(** [s.split(sep)] for a one-character separator. *)
Fixpoint split_on (sep : ascii) (s : string) : list string :=
  match s with
  | EmptyString => [""]
  | String a s' =>
      if Ascii.eqb a sep then "" :: split_on sep s'
      else match split_on sep s' with
           | [] => [String a ""]
           | w :: ws => String a w :: ws
           end
  end.

(** [a === b] on two property reads: primitives compare by value, objects
    (dates, ids, arrays) are never the same object. *)
Definition strict_eq (a b : option value) : bool :=
  match a, b with
  | None, None => true
  | Some VNull, Some VNull => true
  | Some (VBool x), Some (VBool y) => Bool.eqb x y
  | Some (VNum x), Some (VNum y) => Z.eqb x y
  | Some (VStr x), Some (VStr y) => String.eqb x y
  | _, _ => false
  end.

(** What is sent when a middleware throws outside any [try]: the
    error-handling middleware at the end of [run]. *)
Definition something_broke : Response :=
  mkResponse 500 (Message "Something broke!").

Definition with_user (req : Request) (decoded : doc) : Request :=
  mkRequest (authorization req) (params req) (body req) (Some decoded)
    (now req).

(** [verifyFBToken]; [verifyIdToken] is the identity authority: the decoded
    token, or [None] when it rejects the token. *)
Definition verifyFBToken (verifyIdToken : string → option doc) : middleware :=
  λ req _,
    match authorization req with
    | None => Reply (mkResponse 401 (Message "Unauthorized"))
    | Some authHeader =>
        if String.eqb authHeader "" then
          Reply (mkResponse 401 (Message "Unauthorized"))
        else
          match nth_error (split_on " "%char authHeader) 1 with
          | None =>
              Reply (mkResponse 401
                       (Message "Unauthorized: Invalid token format"))
          | Some token =>
              if String.eqb token "" then
                Reply (mkResponse 401
                         (Message "Unauthorized: Invalid token format"))
              else
                match verifyIdToken token with
                | Some decodedToken => Next (with_user req decodedToken)
                | None => Reply (mkResponse 403 (Message "Forbidden"))
                end
          end
    end.

(** [verifySuperAdmin] *)
Definition verifySuperAdmin : middleware :=
  λ req db,
    match user req with
    | None => Reply something_broke
    | Some tok =>
        let email := tok !! "email" in
        let query : doc := {[ "email" := bson email ]} in
        let user := findOne_in query (usersCollection db) in
        if is_str "super_admin" (user ≫= (λ u : doc, u !! "role"))
        then Next req
        else Reply (mkResponse 403 (Message "forbidden access"))
    end.

(** [verifyClubPermission] *)
Definition verifyClubPermission : middleware :=
  λ req db,
    match user req with
    | None => Reply something_broke
    | Some tok =>
        let email := tok !! "email" in
        match params req !! "id" with
        | None => Reply (mkResponse 400 (Message "Club ID is required."))
        | Some clubId =>
            if String.eqb clubId "" then
              Reply (mkResponse 400 (Message "Club ID is required."))
            else
              match new_ObjectId clubId with
              | Throw =>
                  Reply (mkResponse 500
                    (Message "Internal Server Error during permission check."))
              | Ok oid =>
                  let query : doc := {[ "_id" := VOid oid ]} in
                  match findOne_in query (clubsCollection db) with
                  | None =>
                      Reply (mkResponse 404 (Message "Club not found."))
                  | Some club =>
                      if strict_eq (club !! "userEmail") email then Next req
                      else Reply (mkResponse 403 (Message
                        "Forbidden: You are not the manager of this club."))
                  end
              end
        end
    end.

(** ** Route handlers *)

Open Scope handler_scope.

Definition reply (code : nat) (m : string) : M Response :=
  ret (mkResponse code (Message m)).

(** [POST /users] *)
Definition post_users : handler :=
  λ req,
    try_catch
      (let newUser : doc := <["role" := VStr "member"]> (body req) in
       let! alreadyexists :=
         findOne Users {[ "email" := bson (newUser !! "email") ]} in
       match alreadyexists with
       | Some _ => reply 400 "User already exists."
       | None =>
           let! result := insertOne Users newUser in
           ret (mkResponse 201 (Inserted result))
       end)
      (mkResponse 500 (Message "Failed to create user.")).

(** [if (cond) updateDoc.$set.k = v] *)
Definition set_when (cond : bool) (k : string) (v : option value)
    (s : doc) : doc :=
  if cond then <[k := bson v]> s else s.

(** The [$set] document that [PATCH /clubs/:id] builds from the body. *)
Definition club_updateDoc (updatedClub : doc) : doc :=
  let field k := set_when (truthy (updatedClub !! k)) k (updatedClub !! k) in
  set_when (bool_decide (is_Some (updatedClub !! "membershipFee")))
    "membershipFee" (updatedClub !! "membershipFee")
    (field "bannerImage"
       (field "category"
          (field "location"
             (field "description"
                (field "clubName"
                   (field "status" ∅)))))).

(** [PATCH /clubs/:id] *)
Definition patch_club : handler :=
  λ req,
    try_catch
      (let id := route_param req "id" in
       let updatedClub := body req in
       let! oid := lift (new_ObjectId id) in
       let filter : doc := {[ "_id" := VOid oid ]} in
       let! result :=
         updateOne Clubs filter (club_updateDoc updatedClub) ∅ false in
       ret (mkResponse 200 (Updated result)))
      (mkResponse 500 (Message "Failed to update club.")).

(** The natural key [{clubId, userEmail}] of a membership and of its role
    grant. *)
Definition member_key (clubId userEmail : string) : doc :=
  <["clubId" := VStr clubId]> (<["userEmail" := VStr userEmail]> ∅).

Definition grant_set (permissions : list string) : doc :=
  <["role" := VStr "member"]> (<["permissions" := VArr permissions]> ∅).

(** [MEMBER_PERMISSIONS]: the file uses this identifier once, in the handler
    below, and declares it nowhere (no [const], no [require], no global):
    evaluating it throws a ReferenceError. *)
Definition MEMBER_PERMISSIONS : M (list string) := throw.

(** [PATCH /clubs/:id/members/:email/status] *)
Definition patch_member_status : handler :=
  λ req,
    try_catch
      (let clubId := route_param req "id" in
       let userEmail := route_param req "email" in
       let status := body req !! "status" in
       if negb (is_str "active" status || is_str "rejected" status) then
         reply 400 "Invalid status"
       else
         let! updateResult :=
           updateOne Memberships (member_key clubId userEmail)
             {[ "status" := bson status ]} ∅ false in
         let! _ :=
           if Nat.ltb 0 (modifiedCount updateResult) && is_str "active" status
           then
             let! permissions := MEMBER_PERMISSIONS in
             updateOne ClubRoles (member_key clubId userEmail)
               (grant_set permissions)
               {[ "assignedAt" := VDate (now req) ]} true
           else ret (mkUpdateResult 0 0 0 None) in
         ret (mkResponse 200 (Updated updateResult)))
      (mkResponse 500 (Message "Failed to update member status")).

(** [PATCH /memberships/:id] *)
Definition patch_membership : handler :=
  λ req,
    try_catch
      (let id := route_param req "id" in
       let updatedMembership := body req in
       let! oid := lift (new_ObjectId id) in
       let filter : doc := {[ "_id" := VOid oid ]} in
       let! result :=
         updateOne Memberships filter
           {[ "status" := bson (updatedMembership !! "status") ]} ∅ false in
       ret (mkResponse 200 (Updated result)))
      (mkResponse 500 (Message "Failed to update membership.")).

(** The [$set] document of a re-application. *)
Definition reapply_updateDoc (application : doc) (t : nat) : doc :=
  <["name" := bson (application !! "name")]>
    (<["reason" := bson (application !! "reason")]>
       (<["photoURL" := bson (application !! "photoURL")]>
          (<["status" := VStr "pending"]>
             (<["appliedAt" := VDate t]> ∅)))).

(** [POST /club-managers] *)
Definition post_club_managers : handler :=
  λ req,
    try_catch
      (let application := body req in
       if negb (truthy (application !! "name"))
          || negb (truthy (application !! "email"))
       then reply 400 "Name and Email are required."
       else
         let byEmail : doc := {[ "email" := bson (application !! "email") ]} in
         let! existingApp := findOne ClubManagers byEmail in
         match existingApp with
         | Some existingApp =>
             if is_str "rejected" (existingApp !! "status") then
               let! result :=
                 updateOne ClubManagers byEmail
                   (reapply_updateDoc application (now req)) ∅ false in
               ret (mkResponse 200
                      (MessageResult "Re-application submitted successfully."
                         result))
             else if is_str "pending" (existingApp !! "status") then
               reply 409 "Your application is currently pending approval."
             else reply 409 "You are already an approved manager."
         | None =>
             let application :=
               <["appliedAt" := VDate (now req)]>
                 (<["status" := VStr "pending"]> application) in
             let! result := insertOne ClubManagers application in
             ret (mkResponse 201 (Inserted result))
         end)
      (mkResponse 500 (Message "Failed to submit application.")).

(** The promotion step of [PATCH /club-managers/:id]: the application is
    read back after the update and its [email] names the user. *)
Definition promote_applicant (filter : doc) : M unit :=
  let! application := findOne ClubManagers filter in
  match application with
  | Some application =>
      if truthy (application !! "email") then
        let! _ :=
          updateOne Users {[ "email" := bson (application !! "email") ]}
            {[ "role" := VStr "club_manager" ]} ∅ false in
        ret tt
      else ret tt
  | None => ret tt
  end.

(** [PATCH /club-managers/:id].  The body is the [$set] document; its keys
    are read as field names, which is what MongoDB does with a [plain_set]
    (defined with the event handlers below). *)
Definition patch_club_manager : handler :=
  λ req,
    try_catch
      (let id := route_param req "id" in
       let updatedManager := body req in
       let! oid := lift (new_ObjectId id) in
       let filter : doc := {[ "_id" := VOid oid ]} in
       let! result := updateOne ClubManagers filter updatedManager ∅ false in
       let! _ :=
         if is_str "approved" (updatedManager !! "status")
         then promote_applicant filter
         else ret tt in
       ret (mkResponse 200 (Updated result)))
      (mkResponse 500 (Message "Failed to update club manager.")).

(** ** The routes, with the middlewares the source registers them with *)

Section Routes.
Variable verifyIdToken : string → option doc.

Definition route_post_users := run_route [] post_users.

Definition route_patch_club :=
  run_route [verifyFBToken verifyIdToken] patch_club.

Definition route_patch_member_status :=
  run_route [verifyFBToken verifyIdToken] patch_member_status.

Definition route_patch_membership :=
  run_route [verifyFBToken verifyIdToken] patch_membership.

Definition route_post_club_managers := run_route [] post_club_managers.

Definition route_patch_club_manager :=
  run_route [verifyFBToken verifyIdToken] patch_club_manager.
End Routes.

(** ** Further middlewares' helpers and handlers of the same file *)

(** [ObjectId.isValid(s)] for a string: 24 hexadecimal characters. *)
Definition is_hex (a : ascii) : bool :=
  let n := N_of_ascii a in
  ((48 <=? n)%N && (n <=? 57)%N)
  || ((97 <=? n)%N && (n <=? 102)%N)
  || ((65 <=? n)%N && (n <=? 70)%N).

Definition ObjectId_isValid (s : string) : bool :=
  Nat.eqb (String.length s) 24 && forallb is_hex (list_ascii_of_string s).

(** Replies that carry more than a message or a write result. *)
Inductive content : Type :=
| Basic (p : payload)
| Doc (d : doc)                       (* res.send(club) *)
| RoleOnly (role : option value)      (* res.send({ role: user.role }) *)
| Deleted (deletedCount : nat)        (* the result of deleteOne *)
| Existing (existingMembership : doc).
  (* { message: `You already have an ${existingMembership.status}
       membership for this club.`, existingMembership } *)

Record Answer : Type := mkAnswer {
  code : nat;
  carried : content
}.

Definition try_catch_with {R : Type} (m : M R) (on_error : R) : DB → R * DB :=
  λ db, match m db with
        | (Ok r, db') => (r, db')
        | (Throw, db') => (on_error, db')
        end.

Definition answer (c : nat) (m : string) : M Answer :=
  ret (mkAnswer c (Basic (Message m))).

(** [collection.findOne(q)] for a query given as a predicate on documents
    (queries with operators). *)
Definition findOne_by (n : coll) (p : doc → bool) : M (option doc) :=
  λ db, (Ok (List.find p (get_coll n db)), db).

(** Removal of the first match; [None] when no document matches. *)
Fixpoint delete_first (f : doc) (c : list doc) : option (list doc) :=
  match c with
  | [] => None
  | d :: c' =>
      if matches f d then Some c'
      else match delete_first f c' with
           | Some c'' => Some (d :: c'')
           | None => None
           end
  end.

(** [collection.deleteOne(f)], yielding [deletedCount]. *)
Definition deleteOne (n : coll) (f : doc) : M nat :=
  λ db, match delete_first f (get_coll n db) with
        | Some c' => (Ok 1, set_coll n c' db)
        | None => (Ok 0, db)
        end.

(** [PATCH /users/admin/:id] *)
Definition patch_user_admin : handler :=
  λ req,
    try_catch
      (let id := route_param req "id" in
       let role := body req !! "role" in
       let status := body req !! "status" in
       let! oid := lift (new_ObjectId id) in
       let filter : doc := {[ "_id" := VOid oid ]} in
       let updateDoc : doc :=
         set_when (truthy status) "status" status
           (set_when (truthy role) "role" role ∅) in
       let! result := updateOne Users filter updateDoc ∅ false in
       ret (mkResponse 200 (Updated result)))
      (mkResponse 500 (Message "Failed to update user.")).

(** [GET /users/role/:email] *)
Definition get_user_role : Request → DB → Answer * DB :=
  λ req,
    try_catch_with
      (let email := route_param req "email" in
       let query : doc := {[ "email" := VStr email ]} in
       let! user := findOne Users query in
       match user with
       | Some user => ret (mkAnswer 200 (RoleOnly (user !! "role")))
       | None => answer 404 "User not found"
       end)
      (mkAnswer 500 (Basic (Message "Failed to fetch user role"))).

(** [PATCH /users/:email] *)
Definition patch_user_profile : handler :=
  λ req,
    try_catch
      (let email := route_param req "email" in
       let updatedUser := body req in
       let filter : doc := {[ "email" := VStr email ]} in
       let updateDoc : doc :=
         <["name" := bson (updatedUser !! "name")]>
           (<["photoURL" := bson (updatedUser !! "photoURL")]> ∅) in
       let! result := updateOne Users filter updateDoc ∅ false in
       ret (mkResponse 200 (Updated result)))
      (mkResponse 500 (Message "Failed to update user profile.")).

(** [POST /clubs] *)
Definition post_clubs : handler :=
  λ req,
    try_catch
      (let newClub : doc := <["status" := VStr "pending"]> (body req) in
       let! result := insertOne Clubs newClub in
       ret (mkResponse 201 (Inserted result)))
      (mkResponse 500 (Message "Failed to create club.")).

(** [GET /clubs/:id] *)
Definition get_club : Request → DB → Answer * DB :=
  λ req,
    try_catch_with
      (let id := route_param req "id" in
       if negb (ObjectId_isValid id) then
         answer 400 "Invalid Club ID format."
       else
         let! oid := lift (new_ObjectId id) in
         let query : doc := {[ "_id" := VOid oid ]} in
         let! club := findOne Clubs query in
         match club with
         | Some club => ret (mkAnswer 200 (Doc club))
         | None => answer 404 "Club not found."
         end)
      (mkAnswer 500 (Basic (Message "Failed to fetch club."))).

(** The query of [POST /memberships]:
    [{ userEmail, clubId, status: { $in: ['active', 'pending'] } }]. *)
Definition live_membership (userEmail clubId : value) (d : doc) : bool :=
  field_matches (d !! "userEmail") userEmail
  && field_matches (d !! "clubId") clubId
  && existsb (field_matches (d !! "status")) [VStr "active"; VStr "pending"].

(** [POST /memberships] *)
Definition post_memberships : Request → DB → Answer * DB :=
  λ req,
    try_catch_with
      (let membership := body req in
       if negb (truthy (membership !! "userEmail"))
          || negb (truthy (membership !! "clubId"))
       then answer 400 "Missing required fields."
       else
         let! existingMembership :=
           findOne_by Memberships
             (live_membership (bson (membership !! "userEmail"))
                (bson (membership !! "clubId"))) in
         match existingMembership with
         | Some existingMembership =>
             ret (mkAnswer 409 (Existing existingMembership))
         | None =>
             let membership :=
               if truthy (membership !! "status") then membership
               else <["status" := VStr "pending"]> membership in
             let membership :=
               <["joinedAt" := VDate (now req)]> membership in
             let! result := insertOne Memberships membership in
             ret (mkAnswer 201 (Basic (Inserted result)))
         end)
      (mkAnswer 500 (Basic (Message "Failed to create membership."))).

(** [DELETE /memberships/:id] *)
Definition delete_membership : Request → DB → Answer * DB :=
  λ req,
    try_catch_with
      (let id := route_param req "id" in
       let! oid := lift (new_ObjectId id) in
       let query : doc := {[ "_id" := VOid oid ]} in
       let! result := deleteOne Memberships query in
       ret (mkAnswer 200 (Deleted result)))
      (mkAnswer 500 (Basic (Message "Failed to delete membership."))).

(** A key of a [$set] document chosen by the caller names a field when it
    is not empty, does not start with [$] and holds no dot and no NUL.  Any
    other key is a path into embedded documents, an operator or an error
    for MongoDB; documents here have no embedded documents, so a [$set] with
    such a key is outside this model. *)
Definition plain_key (k : string) : bool :=
  match k with
  | EmptyString => false
  | String a _ =>
      negb (Ascii.eqb a "$"%char)
      && forallb (λ c, negb (Ascii.eqb c "."%char)
                       && negb (Ascii.eqb c Ascii.zero))
           (list_ascii_of_string k)
  end.

Definition plain_keys (b : doc) : bool :=
  bool_decide (map_Forall (λ k _, plain_key k = true) b).

(** A [$set] document chosen by the caller is read as an assignment of
    fields when its keys are plain and it is not empty: an empty [$set] is
    an error for a server before MongoDB 5.0 and changes nothing from 5.0
    on, so it is outside this model as well. *)
Definition plain_set (s : doc) : bool :=
  negb (bool_decide (s = ∅)) && plain_keys s.

(** *** Handlers of the events, registrations and payments collections

    Each of these handlers uses one collection, once; it is a function of
    the request, the next fresh id and that collection. *)
Definition collection_handler : Type :=
  Request → N → list doc → Response * list doc.

(** [POST /events] *)
Definition post_events : collection_handler :=
  λ req fresh eventsCollection,
    let newEvent : doc :=
      <["createdAt" := VDate (now req)]>
        (<["status" := VStr "pending"]> (body req)) in
    match insertOne_in newEvent fresh eventsCollection with
    | Ok (result, events') => (mkResponse 201 (Inserted result), events')
    | Throw =>
        (mkResponse 500 (Message "Failed to create event."), eventsCollection)
    end.

(** [PUT /events/:id].  What is left of the body becomes the [$set]
    document: the request is covered when that is a [plain_set], and not
    otherwise ([None]). *)
Definition put_event
  : Request → N → list doc → option (Response * list doc) :=
  λ req fresh eventsCollection,
    let id := route_param req "id" in
    let updatedEvent : doc := delete "clubId" (delete "_id" (body req)) in
    if negb (plain_set updatedEvent) then None
    else
      Some
        match new_ObjectId id with
        | Throw =>
            (mkResponse 500 (Message "Failed to update event."),
             eventsCollection)
        | Ok oid =>
            let filter : doc := {[ "_id" := VOid oid ]} in
            match updateOne_in filter updatedEvent ∅ false fresh
                    eventsCollection with
            | Ok (result, events') =>
                (mkResponse 200 (Updated result), events')
            | Throw =>
                (mkResponse 500 (Message "Failed to update event."),
                 eventsCollection)
            end
        end.

(** [POST /event-registrations] *)
Definition post_event_registrations : collection_handler :=
  λ req fresh eventRegistrationsCollection,
    let registration := body req in
    if negb (truthy (registration !! "eventId"))
       || negb (truthy (registration !! "userEmail"))
       || negb (truthy (registration !! "clubId"))
    then
      (mkResponse 400 (Message "Missing required fields."),
       eventRegistrationsCollection)
    else
      match insertOne_in registration fresh eventRegistrationsCollection with
      | Ok (result, regs') => (mkResponse 201 (Inserted result), regs')
      | Throw =>
          (mkResponse 500 (Message "Failed to register for event."),
           eventRegistrationsCollection)
      end.

(** [POST /payments] *)
Definition post_payments : collection_handler :=
  λ req fresh paymentsCollection,
    let payment := body req in
    if negb (truthy (payment !! "userEmail"))
       || negb (truthy (payment !! "amount"))
       || negb (truthy (payment !! "type"))
    then
      (mkResponse 400 (Message "Missing required payment fields."),
       paymentsCollection)
    else
      let payment : doc :=
        <["status" := VStr "completed"]>
          (<["createdAt" := VDate (now req)]> payment) in
      match insertOne_in payment fresh paymentsCollection with
      | Ok (result, payments') =>
          (mkResponse 201 (Inserted result), payments')
      | Throw =>
          (mkResponse 500 (Message "Failed to record payment."),
           paymentsCollection)
      end.

(** The admin routes: [app.METHOD(path, verifyFBToken, verifySuperAdmin,
    handler)]. *)
Definition admin_route (verifyIdToken : string → option doc) (h : handler)
  : Request → DB → Response * DB :=
  run_route [verifyFBToken verifyIdToken; verifySuperAdmin] h.

Definition route_patch_user_admin (verifyIdToken : string → option doc) :=
  admin_route verifyIdToken patch_user_admin.

(** ** A concrete deployment used to run the handlers *)

Module Scenario.

Definition alice : doc :=
  <["_id" := VOid 1]> (<["email" := VStr "alice@x.com"]>
    (<["role" := VStr "member"]> ∅)).

Definition mallory : doc :=
  <["_id" := VOid 2]> (<["email" := VStr "mallory@x.com"]>
    (<["role" := VStr "member"]> ∅)).

Definition root : doc :=
  <["_id" := VOid 3]> (<["email" := VStr "root@x.com"]>
    (<["role" := VStr "super_admin"]> ∅)).

(** Alice's pending manager application, [_id] 0xa1. *)
Definition alice_application : doc :=
  <["_id" := VOid 161]> (<["email" := VStr "alice@x.com"]>
    (<["name" := VStr "Alice"]> (<["status" := VStr "pending"]>
      (<["appliedAt" := VDate 5]> ∅)))).

(** The id of club 0xc1 as it appears in paths and in memberships. *)
Definition c1 : string := "0000000000000000000000c1".

(** Club 0xc1, owned by Alice. *)
Definition club_c1 : doc :=
  <["_id" := VOid 193]> (<["userEmail" := VStr "alice@x.com"]>
    (<["clubName" := VStr "Chess"]> (<["status" := VStr "approved"]> ∅))).

(** Bob's membership of club c1, [_id] 0xb1. *)
Definition bob_membership (st : string) : doc :=
  <["_id" := VOid 177]> (<["clubId" := VStr c1]>
    (<["userEmail" := VStr "bob@x.com"]> (<["status" := VStr st]> ∅))).

Definition db0 : DB :=
  mkDB [alice; mallory; root] [club_c1] [bob_membership "pending"]
    [alice_application] [] 1000.

(** The identity authority: one token per user. *)
Definition authority (token : string) : option doc :=
  if String.eqb token "tok-alice" then Some {[ "email" := VStr "alice@x.com" ]}
  else if String.eqb token "tok-mallory" then
    Some {[ "email" := VStr "mallory@x.com" ]}
  else if String.eqb token "tok-root" then
    Some {[ "email" := VStr "root@x.com" ]}
  else None.

Definition request (auth : option string) (ps : list (string * string))
    (b : doc) (t : nat) : Request :=
  mkRequest auth (list_to_map ps) b None t.

(** [PATCH /club-managers/0..0a1] by Mallory, approving Alice's application
    while naming herself in the body. *)
Definition approve_with_email : Request :=
  request (Some "Bearer tok-mallory") [("id", "0000000000000000000000a1")]
    (<["status" := VStr "approved"]> (<["email" := VStr "mallory@x.com"]> ∅))
    10.

(** The same request without the [email] field. *)
Definition approve_plain : Request :=
  request (Some "Bearer tok-mallory") [("id", "0000000000000000000000a1")]
    (<["status" := VStr "approved"]> ∅) 10.

(** [PATCH /memberships/0..0b2]: no membership has this id. *)
Definition activate_missing : Request :=
  request (Some "Bearer tok-alice") [("id", "0000000000000000000000b2")]
    (<["status" := VStr "active"]> ∅) 10.

(** A club id that is not an ObjectId. *)
Definition malformed_club_request : Request :=
  mkRequest (Some "Bearer tok-alice") {[ "id" := "not-an-id" ]} ∅
    (Some {[ "email" := VStr "alice@x.com" ]}) 10.

(** [PATCH /clubs/0..0c1/members/bob@x.com/status] with [status: active]. *)
Definition activate_bob (t : nat) : Request :=
  request (Some "Bearer tok-alice") [("id", c1); ("email", "bob@x.com")]
    (<["status" := VStr "active"]> ∅) t.

(** The database once Alice's application has reached status [st]. *)
Definition db_application (st : string) : DB :=
  mkDB [alice; mallory; root] [club_c1] [bob_membership "pending"]
    [<["status" := VStr st]> alice_application] [] 1000.

(** [POST /club-managers]: Alice applies again. *)
Definition reapply_alice : Request :=
  request None []
    (<["email" := VStr "alice@x.com"]> (<["name" := VStr "Alice B."]>
      (<["reason" := VStr "second try"]> ∅))) 20.

(** The database once Bob's membership has reached status [st]. *)
Definition db_membership (st : string) : DB :=
  mkDB [alice; mallory; root] [club_c1] [bob_membership st]
    [alice_application] [] 1000.

(** A status update for a pair without membership. *)
Definition activate_stranger : Request :=
  request (Some "Bearer tok-alice") [("id", c1); ("email", "eve@x.com")]
    (<["status" := VStr "active"]> ∅) 11.

(** [PATCH /memberships/0..0b1] asking for [rejected]. *)
Definition reject_bob : Request :=
  request (Some "Bearer tok-mallory") [("id", "0000000000000000000000b1")]
    (<["status" := VStr "rejected"]> ∅) 12.

(** [POST /users] bodies that ask for the role [super_admin]. *)
Definition register_carol : Request :=
  request None []
    (<["email" := VStr "carol@x.com"]> (<["role" := VStr "super_admin"]> ∅))
    4.

Definition register_alice_again : Request :=
  request None []
    (<["email" := VStr "alice@x.com"]> (<["role" := VStr "super_admin"]> ∅))
    4.

End Scenario.

(** The role stored for the first user with this email. *)
Definition role_of (email : string) (db : DB) : option value :=
  findOne_in {[ "email" := VStr email ]} (usersCollection db)
    ≫= (λ u : doc, u !! "role").

(** The number of documents of a collection that a filter selects. *)
Definition count_matching (f : doc) (c : list doc) : nat :=
  length (List.filter (matches f) c).

(** ** Notions the properties are stated with *)

(** The token of an [Authorization: Bearer <token>] header: its second
    space-separated word, when there is one and it is not empty. *)
Definition extractable_token (authHeader : option string) : option string :=
  match authHeader with
  | None => None
  | Some h =>
      match split_on " "%char h with
      | _ :: t :: _ => if String.eqb t "" then None else Some t
      | _ => None
      end
  end.

Definition set_body (req : Request) (b : doc) : Request :=
  mkRequest (authorization req) (params req) b (user req) (now req).

(** The verdict of a guard, forgetting the request it passes on. *)
Definition verdict (r : mw_result) : option Response :=
  match r with
  | Next _ => None
  | Reply resp => Some resp
  end.

(** A handler surfaces a lost transition as Conflict: whenever its write
    modified no document, the answer is 409. *)
Definition surfaces_conflict (h : handler) : Prop :=
  ∀ (req : Request) (db : DB) (r : UpdateResult),
    sent (h req db).1 = Updated r → modifiedCount r = 0 →
    status (h req db).1 = 409.

(** The status stored in the first document a filter selects. *)
Definition status_of (n : coll) (f : doc) (db : DB) : option value :=
  findOne_in f (get_coll n db) ≫= (λ d : doc, d !! "status").

(** The identity of a club and its owner email. *)
Definition id_and_owner (d : doc) : option value * option value :=
  (d !! "_id", d !! "userEmail").

(** ** Further requests used to run the handlers *)

Module Cases.

(** [PATCH /clubs/0..0c1] with an empty name and a fee of 0. *)
Definition zero_fee_update : Request :=
  Scenario.request (Some "Bearer tok-alice") [("id", Scenario.c1)]
    (<["clubName" := VStr ""]> (<["membershipFee" := VNum 0]> ∅)) 8.

(** [PATCH /club-managers/0..0a1] asking for [rejected]. *)
Definition reject_application : Request :=
  Scenario.request (Some "Bearer tok-mallory")
    [("id", "0000000000000000000000a1")]
    (<["status" := VStr "rejected"]> ∅) 13.

(** [PATCH /clubs/0..0c1/members/bob@x.com/status] asking for [rejected]. *)
Definition reject_member : Request :=
  Scenario.request (Some "Bearer tok-alice")
    [("id", Scenario.c1); ("email", "bob@x.com")]
    (<["status" := VStr "rejected"]> ∅) 14.

(** [POST /memberships]: Eve asks to join club 0xc1. *)
Definition join_eve : Request :=
  Scenario.request (Some "Bearer tok-alice") []
    (<["userEmail" := VStr "eve@x.com"]>
       (<["clubId" := VStr Scenario.c1]> ∅)) 30.

(** An event 0xe1 of club 0xc1, and [PUT /events/0..0e1] with a body that
    names another [_id] and another club beside a new title. *)
Definition event_e1 : doc :=
  <["_id" := VOid 225]> (<["clubId" := VStr Scenario.c1]>
    (<["eventTitle" := VStr "Open day"]> (<["status" := VStr "pending"]> ∅))).

Definition retitle_event : Request :=
  Scenario.request (Some "Bearer tok-mallory")
    [("id", "0000000000000000000000e1")]
    (<["_id" := VStr "x"]> (<["clubId" := VStr "other"]>
       (<["eventTitle" := VStr "Closed day"]> ∅))) 15.

End Cases.

(** ** Further notions *)

Fixpoint has_space (s : string) : bool :=
  match s with
  | EmptyString => false
  | String a s' => Ascii.eqb a " "%char || has_space s'
  end.

(** The number of documents of a collection that a predicate selects. *)
Definition count_where (p : doc → bool) (c : list doc) : nat :=
  length (List.filter p c).

(** No two documents of the collection hold the same string in field [k]. *)
Definition unique_by (k : string) (c : list doc) : Prop :=
  ∀ s : string, (count_matching {[ k := VStr s ]} c ≤ 1)%nat.

(** No pair (userEmail, clubId) has two memberships that are active or
    pending. *)
Definition live_unique (c : list doc) : Prop :=
  ∀ e cl : string,
    (count_where (live_membership (VStr e) (VStr cl)) c ≤ 1)%nat.

(** The closed enumeration of membership statuses. *)
Definition legal_status (d : doc) : Prop :=
  d !! "status" = Some (VStr "pending")
  ∨ d !! "status" = Some (VStr "active")
  ∨ d !! "status" = Some (VStr "rejected").

Definition is_array (o : option value) : bool :=
  match o with
  | Some (VArr _) => true
  | _ => false
  end.

(** * Properties *)

(** ** Filters and first-match updates *)

Lemma field_matches_refl (q : value) : field_matches (Some q) q = true.
Proof.
  destruct q; simpl; try (apply bool_decide_eq_true_2; reflexivity);
    try reflexivity.
  apply String.eqb_refl.
Qed.

Lemma matches_singleton (k : string) (q : value) (d : doc) :
  matches {[ k := q ]} d = field_matches (d !! k) q.
Proof.
  unfold matches. destruct (field_matches (d !! k) q) eqn:E.
  - apply bool_decide_eq_true_2. by apply map_Forall_singleton.
  - apply bool_decide_eq_false_2. rewrite map_Forall_singleton. congruence.
Qed.

Lemma matches_member_key (C E : string) (d : doc) :
  matches (member_key C E) d
  = field_matches (d !! "clubId") (VStr C)
    && field_matches (d !! "userEmail") (VStr E).
Proof.
  unfold matches, member_key.
  destruct (field_matches (d !! "clubId") (VStr C)) eqn:E1;
    destruct (field_matches (d !! "userEmail") (VStr E)) eqn:E2; simpl.
  - apply bool_decide_eq_true_2.
    apply map_Forall_insert; [done|]. split; [done|].
    apply map_Forall_insert; [done|]. split; [done|].
    apply map_Forall_empty.
  - apply bool_decide_eq_false_2. intros H.
    apply map_Forall_insert in H; [|done]. destruct H as [_ H].
    apply map_Forall_insert in H; [|done]. destruct H as [H _]. congruence.
  - apply bool_decide_eq_false_2. intros H.
    apply map_Forall_insert in H; [|done]. destruct H as [H _]. congruence.
  - apply bool_decide_eq_false_2. intros H.
    apply map_Forall_insert in H; [|done]. destruct H as [H _]. congruence.
Qed.

Lemma apply_set_lookup_other (s d : doc) (k : string) :
  s !! k = None → apply_set s d !! k = d !! k.
Proof. intros H. unfold apply_set. by rewrite lookup_union_r. Qed.

Lemma apply_set_lookup_set (s d : doc) (k : string) (v : value) :
  s !! k = Some v → apply_set s d !! k = Some v.
Proof. intros H. unfold apply_set. by apply lookup_union_Some_l. Qed.

Lemma changes_false (s d : doc) : changes s d = false → apply_set s d = d.
Proof.
  unfold changes, apply_set. intros H.
  apply negb_false_iff, bool_decide_eq_true_1 in H.
  apply map_subseteq_union. apply map_subseteq_spec. exact H.
Qed.

Lemma changes_true (s d : doc) : changes s d = true → apply_set s d ≠ d.
Proof.
  unfold changes. intros H Heq.
  apply negb_true_iff, bool_decide_eq_false_1 in H. apply H.
  intros k v Hk. rewrite <- Heq. by apply apply_set_lookup_set.
Qed.

Lemma id_conflict_no_id (s d : doc) :
  s !! "_id" = None → id_conflict s d = false.
Proof. unfold id_conflict. by intros ->. Qed.

Lemma update_first_None (f s : doc) (c : list doc) :
  update_first f s c = None ↔ findOne_in f c = None.
Proof.
  unfold findOne_in. induction c as [|d c IH]; simpl; [done|].
  destruct (matches f d).
  - destruct (id_conflict s d); split; discriminate.
  - rewrite <- IH. destruct (update_first f s c) as [[[n c'']|]|];
      split; (discriminate || done).
Qed.

Lemma update_first_Ok (f s : doc) (c : list doc) (n : nat) (c' : list doc) :
  update_first f s c = Some (Ok (n, c')) →
  ∃ (i : nat) (d : doc),
    c !! i = Some d ∧ findOne_in f c = Some d ∧ id_conflict s d = false ∧
    n = (if changes s d then 1 else 0) ∧ c' = <[i := apply_set s d]> c.
Proof.
  unfold findOne_in. revert n c'.
  induction c as [|d c IH]; simpl; intros n c' H; [discriminate|].
  destruct (matches f d) eqn:Hm.
  - destruct (id_conflict s d) eqn:Hc; [discriminate|].
    injection H as <- <-. exists 0, d. by repeat split.
  - destruct (update_first f s c) as [[[n0 c0]|]|] eqn:Hu; try discriminate.
    injection H as <- <-.
    destruct (IH _ _ eq_refl) as (i & d0 & Hi & Hf & Hc & Hn & Hc0).
    exists (S i), d0. repeat split; try done. simpl. by rewrite Hc0.
Qed.

Lemma update_first_Throw (f s : doc) (c : list doc) :
  update_first f s c = Some Throw →
  ∃ d : doc, findOne_in f c = Some d ∧ id_conflict s d = true.
Proof.
  unfold findOne_in. induction c as [|d c IH]; simpl; intros H; [discriminate|].
  destruct (matches f d) eqn:Hm.
  - destruct (id_conflict s d) eqn:Hc; [|discriminate]. by exists d.
  - destruct (update_first f s c) as [[[n0 c0]|]|] eqn:Hu; try discriminate.
    by apply IH.
Qed.

Lemma update_first_found (f s : doc) (c : list doc) (d : doc) :
  findOne_in f c = Some d → id_conflict s d = false →
  ∃ i : nat,
    c !! i = Some d ∧
    update_first f s c
    = Some (Ok (if changes s d then 1 else 0, <[i := apply_set s d]> c)).
Proof.
  intros Hf Hc.
  destruct (update_first f s c) as [[[n c']|]|] eqn:Hu.
  - apply update_first_Ok in Hu as (i & d0 & Hi & Hf' & _ & -> & ->).
    rewrite Hf in Hf'. injection Hf' as <-. by exists i.
  - apply update_first_Throw in Hu as (d0 & Hf' & Hc').
    rewrite Hf in Hf'. injection Hf' as <-. congruence.
  - apply update_first_None in Hu. congruence.
Qed.

(** Without [_id] in [$set] the update never throws. *)
Lemma update_first_no_throw (f s : doc) (c : list doc) :
  s !! "_id" = None → update_first f s c ≠ Some Throw.
Proof.
  intros Hs Hu. apply update_first_Throw in Hu as (d & _ & Hc).
  rewrite id_conflict_no_id in Hc; done.
Qed.

Lemma findOne_in_exists (f : doc) (c : list doc) (d : doc) :
  d ∈ c → matches f d = true → is_Some (findOne_in f c).
Proof.
  unfold findOne_in. intros Hin Hm.
  destruct (List.find (matches f) c) eqn:E; [by eexists|].
  apply list_elem_of_In in Hin.
  pose proof (find_none _ _ E _ Hin). congruence.
Qed.

(** ** Credential verifier *)

Lemma verifyFBToken_extract (vit : string → option doc) (req : Request)
    (db : DB) :
  verifyFBToken vit req db =
  match extractable_token (authorization req) with
  | None =>
      Reply (mkResponse 401
        (Message (if bool_decide (authorization req = None
                                  ∨ authorization req = Some "")
                  then "Unauthorized"
                  else "Unauthorized: Invalid token format")))
  | Some t =>
      match vit t with
      | Some decodedToken => Next (with_user req decodedToken)
      | None => Reply (mkResponse 403 (Message "Forbidden"))
      end
  end.
Proof.
  unfold verifyFBToken, extractable_token.
  destruct (authorization req) as [h|]; [|done].
  destruct (String.eqb h "") eqn:Eh.
  - apply String.eqb_eq in Eh. subst h. done.
  - assert (Hne : h ≠ "") by (intros ->; by rewrite String.eqb_refl in Eh).
    rewrite (bool_decide_eq_false_2 (Some h = None ∨ Some h = Some ""));
      [|intros [?|?]; congruence].
    destruct (split_on " " h) as [|w [|t ws]]; simpl; try done.
    destruct (String.eqb t ""); done.
Qed.

(** C8: a request without an extractable token is answered 401, one whose
    token the identity authority rejects is answered 403; in both cases
    whatever follows the credential verifier in the route (guards, handler)
    is not run and the database is the one before the request. *)
Theorem credential_verifier_short_circuits (vit : string → option doc)
    (req : Request) (db : DB) :
  (authorization req = None ∨ extractable_token (authorization req) = None →
   ∃ resp, status resp = 401 ∧
     ∀ mws h, run_route (verifyFBToken vit :: mws) h req db = (resp, db))
  ∧
  (∀ t, extractable_token (authorization req) = Some t → vit t = None →
   ∃ resp, status resp = 403 ∧
     ∀ mws h, run_route (verifyFBToken vit :: mws) h req db = (resp, db)).
Proof.
  split.
  - intros H.
    assert (He : extractable_token (authorization req) = None).
    { destruct H as [H|H]; [by rewrite H|done]. }
    eexists. split; [|intros mws h; simpl;
      rewrite verifyFBToken_extract, He; reflexivity]. done.
  - intros t He Hv.
    eexists. split; [|intros mws h; simpl;
      rewrite verifyFBToken_extract, He, Hv; reflexivity]. done.
Qed.

Lemma credential_verifier_short_circuits_witness :
  (∃ resp, status resp = 401 ∧
     ∀ mws h,
       run_route (verifyFBToken Scenario.authority :: mws) h
         (Scenario.request None [("id", "0000000000000000000000c1")]
            (<["status" := VStr "rejected"]> ∅) 3) Scenario.db0
       = (resp, Scenario.db0))
  ∧
  (∃ resp, status resp = 403 ∧
     ∀ mws h,
       run_route (verifyFBToken Scenario.authority :: mws) h
         (Scenario.request (Some "Bearer expired")
            [("id", "0000000000000000000000c1")]
            (<["status" := VStr "rejected"]> ∅) 3) Scenario.db0
       = (resp, Scenario.db0)).
Proof.
  split.
  - apply (credential_verifier_short_circuits Scenario.authority
             (Scenario.request None [("id", "0000000000000000000000c1")]
                (<["status" := VStr "rejected"]> ∅) 3) Scenario.db0).
    left. reflexivity.
  - apply (credential_verifier_short_circuits Scenario.authority
             (Scenario.request (Some "Bearer expired")
                [("id", "0000000000000000000000c1")]
                (<["status" := VStr "rejected"]> ∅) 3) Scenario.db0)
      with (t := "expired"); reflexivity.
Defined.

(** ** Registration *)

Lemma insertOne_in_Ok (d : doc) (fresh : N) (c : list doc) (v : value)
    (c' : list doc) :
  insertOne_in d fresh c = Ok (v, c') →
  ∃ d' : doc, c' = (c ++ [d'])%list ∧
    ∀ k, k ≠ "_id" → d' !! k = d !! k.
Proof.
  unfold insertOne_in. intros H.
  destruct (d !! "_id") as [[]|] eqn:Hid; try discriminate;
    try (destruct (existsb _ c); [discriminate|];
         injection H as <- <-; by exists d);
    injection H as <- <-; eexists; (split; [reflexivity|]);
    intros k Hk; by rewrite lookup_insert_ne.
Qed.

(** What [POST /users] does, by cases on the lookup of the email. *)
Lemma post_users_cases (req : Request) (db : DB) :
  let newUser : doc := <["role" := VStr "member"]> (body req) in
  post_users req db =
  match findOne_in {[ "email" := bson (body req !! "email") ]}
          (usersCollection db) with
  | Some _ => (mkResponse 400 (Message "User already exists."), db)
  | None =>
      match insertOne_in newUser (next_oid db) (usersCollection db) with
      | Ok (v, c') => (mkResponse 201 (Inserted v), bump (set_coll Users c' db))
      | Throw => (mkResponse 500 (Message "Failed to create user."), db)
      end
  end.
Proof.
  unfold post_users, try_catch, bind, findOne, insertOne, reply, ret. simpl.
  rewrite lookup_insert_ne by done.
  destruct (findOne_in _ (usersCollection db)); [done|].
  destruct (insertOne_in _ _ _) as [[v c']|]; done.
Qed.

(** C9: [POST /users] stores the new user with role [member] whatever role
    the body names, and answers 400 without touching the database when a
    user with the same email is already stored. *)
Theorem post_users_registers_member (req : Request) (db : DB) :
  (∀ v : value,
     post_users (set_body req (<["role" := v]> (body req))) db
     = post_users req db)
  ∧ (∀ u : doc, u ∈ usersCollection (post_users req db).2 →
       u ∈ usersCollection db ∨ u !! "role" = Some (VStr "member"))
  ∧ (status (post_users req db).1 = 201 →
     ∃ u : doc,
       usersCollection (post_users req db).2
       = (usersCollection db ++ [u])%list
       ∧ u !! "role" = Some (VStr "member")
       ∧ ∀ k, k ≠ "role" → k ≠ "_id" → u !! k = body req !! k)
  ∧ (∀ (u : doc) (e : value),
       u ∈ usersCollection db → u !! "email" = Some e →
       body req !! "email" = Some e →
       status (post_users req db).1 = 400 ∧ (post_users req db).2 = db).
Proof.
  split; [|split; [|split]].
  - intros v. rewrite !post_users_cases. simpl.
    rewrite insert_insert_eq. by rewrite lookup_insert_ne.
  - intros u. rewrite post_users_cases. simpl.
    destruct (findOne_in _ (usersCollection db)); [by left|].
    destruct (insertOne_in _ _ _) as [[v c']|] eqn:Hi; [|by left].
    apply insertOne_in_Ok in Hi as (d' & -> & Hd'). simpl.
    intros [Hu|Hu]%elem_of_app; [by left|].
    apply list_elem_of_singleton in Hu as ->. right.
    rewrite Hd' by done. apply lookup_insert_eq.
  - rewrite post_users_cases. simpl.
    destruct (findOne_in _ (usersCollection db)); [discriminate|].
    destruct (insertOne_in _ _ _) as [[v c']|] eqn:Hi; [|discriminate].
    intros _. apply insertOne_in_Ok in Hi as (d' & -> & Hd').
    exists d'. simpl. split; [done|]. split.
    + rewrite Hd' by done. apply lookup_insert_eq.
    + intros k Hr Hk. rewrite Hd' by done. by rewrite lookup_insert_ne.
  - intros u e Hin Hu He. rewrite post_users_cases. simpl.
    rewrite He. simpl.
    destruct (findOne_in_exists {[ "email" := e ]} (usersCollection db) u)
      as [u' ->]; [exact Hin| |split; reflexivity].
    rewrite matches_singleton, Hu. apply field_matches_refl.
Qed.

Lemma post_users_registers_member_witness :
  (∃ u : doc,
     usersCollection (post_users Scenario.register_carol Scenario.db0).2
     = (usersCollection Scenario.db0 ++ [u])%list
     ∧ u !! "role" = Some (VStr "member")
     ∧ ∀ k, k ≠ "role" → k ≠ "_id" →
         u !! k = body Scenario.register_carol !! k)
  ∧ (status (post_users Scenario.register_alice_again Scenario.db0).1 = 400
     ∧ (post_users Scenario.register_alice_again Scenario.db0).2
       = Scenario.db0).
Proof.
  split.
  - apply (proj1 (proj2 (proj2 (post_users_registers_member
             Scenario.register_carol Scenario.db0)))).
    vm_compute. reflexivity.
  - apply (proj2 (proj2 (proj2 (post_users_registers_member
             Scenario.register_alice_again Scenario.db0)))
             Scenario.alice (VStr "alice@x.com")).
    + simpl. left.
    + reflexivity.
    + reflexivity.
Defined.

(** ** Club ownership *)

Lemma set_when_lookup_ne (cond : bool) (k k' : string) (v : option value)
    (s : doc) :
  k ≠ k' → set_when cond k v s !! k' = s !! k'.
Proof.
  intros Hne. unfold set_when. destruct cond; [|done].
  by rewrite lookup_insert_ne.
Qed.

(** [PATCH /clubs/:id] sets enumerated fields only. *)
Lemma club_updateDoc_fields (b : doc) (k : string) :
  k ∉ ["status"; "clubName"; "description"; "location"; "category";
       "bannerImage"; "membershipFee"] →
  club_updateDoc b !! k = None.
Proof.
  intros Hk. unfold club_updateDoc.
  repeat (rewrite set_when_lookup_ne;
          [| intros <-; apply Hk, list_elem_of_In; simpl; tauto]).
  apply lookup_empty.
Qed.

(** A projection of the documents that [$set] cannot change is the same
    list after an update without upsert, in every collection. *)
Lemma update_first_keeps {A} (g : doc → A) (f s : doc) (c : list doc)
    (n : nat) (c' : list doc) :
  (∀ d, g (apply_set s d) = g d) →
  update_first f s c = Some (Ok (n, c')) → g <$> c' = g <$> c.
Proof.
  intros Hg Hu.
  apply update_first_Ok in Hu as (i & d & Hi & _ & _ & _ & ->).
  rewrite list_fmap_insert. apply list_insert_id.
  rewrite list_lookup_fmap, Hi. simpl. by rewrite Hg.
Qed.

Lemma updateOne_keeps {A} (g : doc → A) (n : coll) (f s : doc) (db : DB) :
  (∀ d, g (apply_set s d) = g d) →
  ∀ m : coll,
    g <$> get_coll m (updateOne n f s ∅ false db).2 = g <$> get_coll m db.
Proof.
  intros Hg m. unfold updateOne, updateOne_in.
  destruct (update_first f s (get_coll n db)) as [[[r c']|]|] eqn:Hu;
    simpl; try done.
  - apply (update_first_keeps g _ _ _ _ _ Hg) in Hu.
    destruct n, m; simpl in *; done.
  - destruct n, m; done.
Qed.

Lemma club_updateDoc_keeps_owner (b d : doc) :
  id_and_owner (apply_set (club_updateDoc b) d) = id_and_owner d.
Proof.
  unfold id_and_owner.
  rewrite !apply_set_lookup_other; [done| |];
    apply club_updateDoc_fields; intros H%list_elem_of_In; simpl in H;
    intuition discriminate.
Qed.

Lemma patch_club_keeps_owner (req : Request) (db : DB) :
  id_and_owner <$> clubsCollection (patch_club req db).2
  = id_and_owner <$> clubsCollection db.
Proof.
  unfold patch_club, try_catch, bind, lift, ret.
  destruct (new_ObjectId (route_param req "id")) as [oid|]; [|done].
  pose proof (updateOne_keeps id_and_owner Clubs {[ "_id" := VOid oid ]}
                (club_updateDoc (body req)) db
                (club_updateDoc_keeps_owner _) Clubs) as H.
  destruct (updateOne Clubs _ _ ∅ false db) as [[r|] db']; exact H.
Qed.

Lemma verifyClubPermission_ignores_body (req : Request) (b : doc) (db : DB) :
  verdict (verifyClubPermission (set_body req b) db)
  = verdict (verifyClubPermission req db).
Proof.
  unfold verifyClubPermission. simpl.
  destruct (user req) as [tok|]; [|done].
  destruct (params req !! "id") as [clubId|]; [|done].
  destruct (String.eqb clubId ""); [done|].
  destruct (new_ObjectId clubId) as [oid|]; [|done].
  destruct (findOne_in _ (clubsCollection db)) as [club|]; [|done].
  destruct (strict_eq _ _); done.
Qed.


(** ** Manager applications: re-applying *)

Lemma reapply_updateDoc_lookup (b : doc) (t : nat) (k : string) :
  reapply_updateDoc b t !! k =
  if decide (k = "name") then Some (bson (b !! "name"))
  else if decide (k = "reason") then Some (bson (b !! "reason"))
  else if decide (k = "photoURL") then Some (bson (b !! "photoURL"))
  else if decide (k = "status") then Some (VStr "pending")
  else if decide (k = "appliedAt") then Some (VDate t)
  else None.
Proof.
  unfold reapply_updateDoc.
  repeat (case_decide; [subst; by simplify_map_eq|]).
  by simplify_map_eq.
Qed.

Lemma updateOne_found (n : coll) (f s : doc) (db : DB) (d : doc) :
  findOne_in f (get_coll n db) = Some d → s !! "_id" = None →
  ∃ i : nat,
    get_coll n db !! i = Some d ∧
    updateOne n f s ∅ false db
    = (Ok (mkUpdateResult 1 (if changes s d then 1 else 0) 0 None),
       set_coll n (<[i := apply_set s d]> (get_coll n db)) db).
Proof.
  intros Hf Hs.
  destruct (update_first_found f s _ d Hf (id_conflict_no_id s d Hs))
    as (i & Hi & Hu).
  exists i. split; [done|]. unfold updateOne, updateOne_in. by rewrite Hu.
Qed.

(** C6: when the application stored for the email of a complete submission
    (name and email given) is rejected, [POST /club-managers] answers 200 and
    rewrites that application in place: status pending, name, reason and
    photo from the body, appliedAt the time of the request, every other field
    (the email and the _id among them) as stored, nothing else in the
    database changed.  When it is approved, the answer is 409 and the
    database is unchanged. *)
Theorem reapplication_after_rejection (req : Request) (db : DB) (app : doc) :
  truthy (body req !! "name") = true →
  truthy (body req !! "email") = true →
  findOne_in {[ "email" := bson (body req !! "email") ]}
    (clubManagersCollection db) = Some app →
  (app !! "status" = Some (VStr "rejected") →
   ∃ (i : nat) (app' : doc),
     clubManagersCollection db !! i = Some app
     ∧ status (post_club_managers req db).1 = 200
     ∧ (post_club_managers req db).2
       = set_coll ClubManagers (<[i := app']> (clubManagersCollection db)) db
     ∧ app' !! "status" = Some (VStr "pending")
     ∧ app' !! "name" = body req !! "name"
     ∧ app' !! "reason" = Some (bson (body req !! "reason"))
     ∧ app' !! "photoURL" = Some (bson (body req !! "photoURL"))
     ∧ app' !! "appliedAt" = Some (VDate (now req))
     ∧ app' !! "email" = app !! "email"
     ∧ app' !! "_id" = app !! "_id"
     ∧ ∀ k, k ∉ ["name"; "reason"; "photoURL"; "status"; "appliedAt"] →
         app' !! k = app !! k)
  ∧ (app !! "status" = Some (VStr "approved") →
     status (post_club_managers req db).1 = 409
     ∧ (post_club_managers req db).2 = db).
Proof.
  intros Hname Hemail Hfind.
  unfold post_club_managers, try_catch, bind, findOne, reply, ret.
  rewrite Hname, Hemail. simpl. rewrite Hfind.
  split; intros Hst; rewrite Hst; simpl; [|done].
  destruct (updateOne_found ClubManagers
              {[ "email" := bson (body req !! "email") ]}
              (reapply_updateDoc (body req) (now req)) db app Hfind)
    as (i & Hi & ->).
  { by rewrite reapply_updateDoc_lookup. }
  exists i, (apply_set (reapply_updateDoc (body req) (now req)) app).
  simpl in *. split; [done|]. split; [done|]. split; [done|].
  assert (Hset : ∀ k v, reapply_updateDoc (body req) (now req) !! k = Some v →
            apply_set (reapply_updateDoc (body req) (now req)) app !! k
            = Some v) by (intros; by apply apply_set_lookup_set).
  assert (Hother : ∀ k, reapply_updateDoc (body req) (now req) !! k = None →
            apply_set (reapply_updateDoc (body req) (now req)) app !! k
            = app !! k) by (intros; by apply apply_set_lookup_other).
  repeat split;
    try (apply Hset; by rewrite reapply_updateDoc_lookup);
    try (apply Hother; by rewrite reapply_updateDoc_lookup).
  - rewrite (Hset "name" (bson (body req !! "name")))
      by (by rewrite reapply_updateDoc_lookup).
    destruct (body req !! "name"); [done|discriminate].
  - intros k Hk. apply Hother. rewrite reapply_updateDoc_lookup.
    repeat (case_decide;
            [subst; exfalso; apply Hk, list_elem_of_In; simpl; tauto|]).
    done.
Qed.

Lemma reapplication_after_rejection_witness :
  (∃ (i : nat) (app' : doc),
     clubManagersCollection (Scenario.db_application "rejected") !! i
     = Some (<["status" := VStr "rejected"]> Scenario.alice_application)
     ∧ status (post_club_managers Scenario.reapply_alice
                 (Scenario.db_application "rejected")).1 = 200
     ∧ (post_club_managers Scenario.reapply_alice
          (Scenario.db_application "rejected")).2
       = set_coll ClubManagers
           (<[i := app']>
              (clubManagersCollection (Scenario.db_application "rejected")))
           (Scenario.db_application "rejected")
     ∧ app' !! "status" = Some (VStr "pending")
     ∧ app' !! "name" = body Scenario.reapply_alice !! "name"
     ∧ app' !! "reason"
       = Some (bson (body Scenario.reapply_alice !! "reason"))
     ∧ app' !! "photoURL"
       = Some (bson (body Scenario.reapply_alice !! "photoURL"))
     ∧ app' !! "appliedAt" = Some (VDate (now Scenario.reapply_alice))
     ∧ app' !! "email"
       = (<["status" := VStr "rejected"]> Scenario.alice_application : doc)
           !! "email"
     ∧ app' !! "_id"
       = (<["status" := VStr "rejected"]> Scenario.alice_application : doc)
           !! "_id"
     ∧ ∀ k, k ∉ ["name"; "reason"; "photoURL"; "status"; "appliedAt"] →
         app' !! k
         = (<["status" := VStr "rejected"]> Scenario.alice_application : doc)
             !! k)
  ∧ (status (post_club_managers Scenario.reapply_alice
               (Scenario.db_application "approved")).1 = 409
     ∧ (post_club_managers Scenario.reapply_alice
          (Scenario.db_application "approved")).2
       = Scenario.db_application "approved").
Proof.
  split.
  - apply (proj1 (reapplication_after_rejection Scenario.reapply_alice
             (Scenario.db_application "rejected")
             (<["status" := VStr "rejected"]> Scenario.alice_application)
             eq_refl eq_refl eq_refl)).
    reflexivity.
  - apply (proj2 (reapplication_after_rejection Scenario.reapply_alice
             (Scenario.db_application "approved")
             (<["status" := VStr "approved"]> Scenario.alice_application)
             eq_refl eq_refl eq_refl)).
    reflexivity.
Defined.

(** ** Member approval and the derived role grant *)

Lemma is_str_true (lit : string) (o : option value) :
  is_str lit o = true → o = Some (VStr lit).
Proof.
  destruct o as [[]|]; simpl; try discriminate.
  by intros ->%String.eqb_eq.
Qed.

Lemma findOne_in_split (f : doc) (l1 l2 : list doc) (d : doc) :
  Forall (λ x, matches f x = false) l1 → matches f d = true →
  findOne_in f (l1 ++ d :: l2) = Some d.
Proof.
  unfold findOne_in. induction 1 as [|x l1 Hx _ IH]; simpl; intros Hd.
  - by rewrite Hd.
  - rewrite Hx. by apply IH.
Qed.

Lemma update_first_at (f s : doc) (l1 l2 : list doc) (d : doc) :
  Forall (λ x, matches f x = false) l1 → matches f d = true →
  id_conflict s d = false →
  update_first f s (l1 ++ d :: l2)
  = Some (Ok (if changes s d then 1 else 0, l1 ++ apply_set s d :: l2)%list).
Proof.
  induction 1 as [|x l1 Hx _ IH]; simpl; intros Hd Hc.
  - by rewrite Hd, Hc.
  - rewrite Hx, IH; done.
Qed.

Lemma filter_no_match (f : doc) (l : list doc) :
  Forall (λ x, matches f x = false) l → List.filter (matches f) l = [].
Proof. induction 1 as [|x l Hx _ IH]; simpl; [done|]. by rewrite Hx. Qed.

Lemma findOne_in_None_Forall (f : doc) (c : list doc) :
  findOne_in f c = None → Forall (λ x, matches f x = false) c.
Proof.
  unfold findOne_in. intros H. apply Forall_forall. intros x Hx.
  apply (find_none _ _ H). by apply list_elem_of_In.
Qed.

(** An update of one collection leaves the others alone. *)
Lemma updateOne_other (n m : coll) (f s soi : doc) (up : bool) (db : DB) :
  n ≠ m → get_coll m (updateOne n f s soi up db).2 = get_coll m db.
Proof.
  intros Hne. unfold updateOne.
  destruct (updateOne_in f s soi up (next_oid db) (get_coll n db))
    as [[r c']|]; simpl; [|done].
  destruct (upsertedCount r =? 0)%nat; destruct n, m; done.
Qed.

Lemma updateOne_no_throw (n : coll) (f s soi : doc) (up : bool) (db : DB) :
  s !! "_id" = None → ∃ r, (updateOne n f s soi up db).1 = Ok r.
Proof.
  intros Hs. unfold updateOne, updateOne_in.
  pose proof (update_first_no_throw f s (get_coll n db) Hs) as Hnt.
  destruct (update_first f s (get_coll n db)) as [[[k c']|]|]; [| done |].
  - by eexists.
  - destruct up; by eexists.
Qed.

(** [PATCH /clubs/:id/members/:email/status] with an accepted status, by
    cases on the update of the membership: when the membership was modified
    and the status is active, [MEMBER_PERMISSIONS] throws after the write of
    the membership and the [catch] answers 500. *)
Lemma patch_member_status_run (req : Request) (db : DB) :
  let key := member_key (route_param req "id") (route_param req "email") in
  let st := body req !! "status" in
  is_str "active" st || is_str "rejected" st = true →
  patch_member_status req db =
  match update_first key {[ "status" := bson st ]}
          (membershipsCollection db) with
  | None => (mkResponse 200 (Updated (mkUpdateResult 0 0 0 None)), db)
  | Some Throw =>
      (mkResponse 500 (Message "Failed to update member status"), db)
  | Some (Ok (n, c')) =>
      let db1 := set_coll Memberships c' db in
      if Nat.ltb 0 n && is_str "active" st then
        (mkResponse 500 (Message "Failed to update member status"), db1)
      else (mkResponse 200 (Updated (mkUpdateResult 1 n 0 None)), db1)
  end.
Proof.
  intros key st Hvalid.
  unfold patch_member_status, try_catch, bind, reply, ret,
    MEMBER_PERMISSIONS, throw.
  fold key st. rewrite Hvalid. simpl.
  unfold updateOne at 1. unfold updateOne_in. simpl.
  destruct (update_first key _ (membershipsCollection db))
    as [[[n c']|]|] eqn:Hu; simpl; try done.
  - destruct (Nat.ltb 0 n && is_str "active" st); reflexivity.
  - by destruct db.
Qed.

(** Asking for [active] when the membership that the key selects is active
    already changes nothing at all. *)
Lemma member_status_already_active (req : Request) (db : DB) (m : doc) :
  body req !! "status" = Some (VStr "active") →
  findOne_in (member_key (route_param req "id") (route_param req "email"))
    (membershipsCollection db) = Some m →
  m !! "status" = Some (VStr "active") →
  patch_member_status req db
  = (mkResponse 200 (Updated (mkUpdateResult 1 0 0 None)), db).
Proof.
  intros Hst Hf Hm.
  rewrite patch_member_status_run by (by rewrite Hst).
  rewrite Hst. simpl.
  destruct (update_first_found _ {[ "status" := VStr "active" ]} _ m Hf)
    as (i & Hi & ->); [done|].
  assert (Hch : changes {[ "status" := VStr "active" ]} m = false).
  { unfold changes. apply negb_false_iff, bool_decide_eq_true_2.
    by apply map_Forall_singleton. }
  rewrite Hch. simpl. rewrite (changes_false _ _ Hch).
  rewrite list_insert_id by done.
  by destruct db.
Qed.

(** C10: with an accepted status, a member-status update whose
    (clubId, userEmail) pair selects no membership is answered 200 with zero
    matched rows and changes nothing; the role grants change only when the
    requested status is active and the membership document was modified;
    and asking for active on an active membership changes nothing. *)
Theorem member_status_derived_write (req : Request) (db : DB) :
  let key := member_key (route_param req "id") (route_param req "email") in
  let st := body req !! "status" in
  is_str "active" st || is_str "rejected" st = true →
  (findOne_in key (membershipsCollection db) = None →
   patch_member_status req db
   = (mkResponse 200 (Updated (mkUpdateResult 0 0 0 None)), db))
  ∧ (club_roles (patch_member_status req db).2 ≠ club_roles db →
     st = Some (VStr "active")
     ∧ membershipsCollection (patch_member_status req db).2
       ≠ membershipsCollection db
     ∧ ∃ r, (patch_member_status req db).1 = mkResponse 200 (Updated r)
            ∧ 0 < modifiedCount r)
  ∧ (∀ m : doc,
       findOne_in key (membershipsCollection db) = Some m →
       m !! "status" = Some (VStr "active") → st = Some (VStr "active") →
       patch_member_status req db
       = (mkResponse 200 (Updated (mkUpdateResult 1 0 0 None)), db)).
Proof.
  intros key st Hvalid. split; [|split].
  - intros Hnone. rewrite patch_member_status_run by done. fold key st.
    apply (update_first_None key {[ "status" := bson st ]}) in Hnone.
    by rewrite Hnone.
  - rewrite patch_member_status_run by done. fold key st.
    destruct (update_first key _ (membershipsCollection db))
      as [[[n c']|]|] eqn:Hu; simpl; try done.
    destruct (Nat.ltb 0 n && is_str "active" st); simpl;
      intros Hroles; by destruct Hroles.
  - intros m Hf Hm Hst. by apply (member_status_already_active req db m).
Qed.

Lemma member_status_derived_write_witness :
  patch_member_status Scenario.activate_stranger Scenario.db0
  = (mkResponse 200 (Updated (mkUpdateResult 0 0 0 None)), Scenario.db0)
  ∧ patch_member_status (Scenario.activate_bob 9)
      (Scenario.db_membership "active")
    = (mkResponse 200 (Updated (mkUpdateResult 1 0 0 None)),
       Scenario.db_membership "active").
Proof.
  split.
  - apply (proj1 (member_status_derived_write Scenario.activate_stranger
                    Scenario.db0 eq_refl)).
    vm_compute. reflexivity.
  - apply (proj2 (proj2 (member_status_derived_write
                    (Scenario.activate_bob 9)
                    (Scenario.db_membership "active") eq_refl))
             (Scenario.bob_membership "active")); vm_compute; reflexivity.
Defined.

(** C5 on the code: Bob's membership of club 0xc1 is pending and there is no
    role grant.  The request that activates it is answered 500, with the
    membership stored active and still no grant: the upsert of the grant is
    never reached, because its argument [MEMBER_PERMISSIONS] throws.  The
    retry finds the membership active, modifies nothing, is answered 200 and
    writes no grant either. *)
Theorem activation_writes_no_grant :
  status_of Memberships (member_key Scenario.c1 "bob@x.com") Scenario.db0
  = Some (VStr "pending")
  ∧ club_roles Scenario.db0 = []
  ∧ (let out1 :=
       route_patch_member_status Scenario.authority (Scenario.activate_bob 7)
         Scenario.db0 in
     out1.1 = mkResponse 500 (Message "Failed to update member status")
     ∧ status_of Memberships (member_key Scenario.c1 "bob@x.com") out1.2
       = Some (VStr "active")
     ∧ club_roles out1.2 = []
     ∧ (let out2 :=
          route_patch_member_status Scenario.authority
            (Scenario.activate_bob 9) out1.2 in
        out2.1 = mkResponse 200 (Updated (mkUpdateResult 1 0 0 None))
        ∧ club_roles out2.2 = [])).
Proof. repeat split; vm_compute; reflexivity. Qed.

(** ** Lifecycle writes *)

Lemma matches_id_ignores_status (oid : N) (d : doc) (v : value) :
  matches {[ "_id" := VOid oid ]} (<["status" := v]> d)
  = matches {[ "_id" := VOid oid ]} d.
Proof. rewrite !matches_singleton. by rewrite lookup_insert_ne. Qed.

Lemma matches_key_ignores_status (C E : string) (d : doc) (v : value) :
  matches (member_key C E) (<["status" := v]> d) = matches (member_key C E) d.
Proof. rewrite !matches_member_key. by rewrite !lookup_insert_ne. Qed.

Lemma updateOne_no_match (n : coll) (f s : doc) (db : DB) :
  findOne_in f (get_coll n db) = None →
  updateOne n f s ∅ false db = (Ok (mkUpdateResult 0 0 0 None), db).
Proof.
  intros Hf. unfold updateOne, updateOne_in.
  apply (update_first_None f s) in Hf. rewrite Hf. simpl.
  by destruct db, n.
Qed.

(** An update whose [$set] leaves the [_id] of the selected document as it
    is rewrites that document in place. *)
Lemma updateOne_rewrites (n : coll) (f s : doc) (db : DB) (d : doc) :
  findOne_in f (get_coll n db) = Some d → id_conflict s d = false →
  ∃ i : nat,
    get_coll n db !! i = Some d ∧
    updateOne n f s ∅ false db
    = (Ok (mkUpdateResult 1 (if changes s d then 1 else 0) 0 None),
       set_coll n (<[i := apply_set s d]> (get_coll n db)) db).
Proof.
  intros Hf Hid.
  destruct (update_first_found f s _ d Hf Hid) as (i & Hi & Hu).
  exists i. split; [exact Hi|].
  unfold updateOne, updateOne_in. rewrite Hu. reflexivity.
Qed.

(** The promotion of the applicant never throws and leaves the applications
    as they are. *)
Lemma promote_applicant_run (filter : doc) (db : DB) :
  ∃ db', promote_applicant filter db = (Ok tt, db')
         ∧ clubManagersCollection db' = clubManagersCollection db.
Proof.
  unfold promote_applicant, bind, findOne, ret.
  destruct (findOne_in filter (get_coll ClubManagers db)) as [app|];
    [|by eexists].
  destruct (truthy (app !! "email")); [|by eexists].
  destruct (updateOne_no_throw Users {[ "email" := bson (app !! "email") ]}
              {[ "role" := VStr "club_manager" ]} ∅ false db) as [r Hr];
    [reflexivity|].
  pose proof (updateOne_other Users ClubManagers
                {[ "email" := bson (app !! "email") ]}
                {[ "role" := VStr "club_manager" ]} ∅ false db) as Hother.
  destruct (updateOne Users _ _ ∅ false db) as [o db'].
  simpl in Hr. subst o. exists db'. split; [reflexivity|].
  apply Hother. discriminate.
Qed.

Lemma promote_applicant_no_throw (filter : doc) (db : DB) :
  ∃ db', promote_applicant filter db = (Ok tt, db').
Proof.
  destruct (promote_applicant_run filter db) as (db' & H & _). by exists db'.
Qed.

(** The three transition handlers answer 200 with the update result, 400
    (member approval with an unknown status) or 500 (an exception). *)
Lemma patch_membership_answer (req : Request) (db : DB) :
  (∃ r, (patch_membership req db).1 = mkResponse 200 (Updated r))
  ∨ (∃ m, (patch_membership req db).1 = mkResponse 500 (Message m)).
Proof.
  unfold patch_membership, try_catch, bind, lift, ret.
  destruct (new_ObjectId (route_param req "id")) as [oid|];
    [|right; by eexists].
  destruct (updateOne Memberships _ _ ∅ false db) as [[r|] db1];
    [left|right]; by eexists.
Qed.

Lemma patch_club_manager_answer (req : Request) (db : DB) :
  (∃ r, (patch_club_manager req db).1 = mkResponse 200 (Updated r))
  ∨ (∃ m, (patch_club_manager req db).1 = mkResponse 500 (Message m)).
Proof.
  unfold patch_club_manager, try_catch, bind, lift, ret.
  destruct (new_ObjectId (route_param req "id")) as [oid|];
    [|right; by eexists].
  destruct (updateOne ClubManagers _ _ ∅ false db) as [[r|] db1];
    [|right; by eexists].
  destruct (is_str "approved" (body req !! "status")).
  - destruct (promote_applicant_no_throw {[ "_id" := VOid oid ]} db1)
      as [db2 ->]. left. by eexists.
  - left. by eexists.
Qed.

Lemma patch_member_status_answer (req : Request) (db : DB) :
  (∃ r, (patch_member_status req db).1 = mkResponse 200 (Updated r))
  ∨ (∃ c m, c ≠ 409
       ∧ (patch_member_status req db).1 = mkResponse c (Message m)).
Proof.
  destruct (is_str "active" (body req !! "status")
            || is_str "rejected" (body req !! "status")) eqn:Hv.
  - rewrite patch_member_status_run by exact Hv.
    destruct (update_first _ _ (membershipsCollection db)) as [[[n c']|]|].
    + destruct (Nat.ltb 0 n && is_str "active" (body req !! "status")).
      * right. exists 500. eexists. split; [lia|reflexivity].
      * left. by eexists.
    + right. exists 500. eexists. split; [lia|reflexivity].
    + left. by eexists.
  - right. exists 400. eexists. split; [lia|].
    unfold patch_member_status, try_catch, reply, ret. by rewrite Hv.
Qed.

(** What [PATCH /memberships/:id] does once the id parses. *)
Lemma patch_membership_write (req : Request) (db : DB) (oid : N) :
  new_ObjectId (route_param req "id") = Ok oid →
  match findOne_in {[ "_id" := VOid oid ]} (membershipsCollection db) with
  | None =>
      patch_membership req db
      = (mkResponse 200 (Updated (mkUpdateResult 0 0 0 None)), db)
  | Some d =>
      ∃ (i : nat) (n : nat),
        membershipsCollection db !! i = Some d
        ∧ patch_membership req db
          = (mkResponse 200 (Updated (mkUpdateResult 1 n 0 None)),
             set_coll Memberships
               (<[i := <["status" := bson (body req !! "status")]> d]>
                  (membershipsCollection db)) db)
  end.
Proof.
  intros Hid. unfold patch_membership, try_catch, bind, lift, ret.
  rewrite Hid.
  destruct (findOne_in _ (membershipsCollection db)) as [d|] eqn:Hf.
  - destruct (updateOne_found Memberships {[ "_id" := VOid oid ]}
                {[ "status" := bson (body req !! "status") ]} db d Hf)
      as (i & Hi & ->); [reflexivity|].
    exists i. eexists. split; [exact Hi|]. simpl. unfold apply_set.
    by rewrite <- insert_union_singleton_l.
  - unfold updateOne, updateOne_in. simpl.
    apply (update_first_None _ {[ "status" := bson (body req !! "status") ]})
      in Hf. rewrite Hf. by destruct db.
Qed.

(** What [PATCH /club-managers/:id] does once the id parses: the application
    with that id, whatever its status, gets the fields of the body. *)
Lemma patch_club_manager_write (req : Request) (db : DB) (oid : N) :
  new_ObjectId (route_param req "id") = Ok oid →
  match findOne_in {[ "_id" := VOid oid ]} (clubManagersCollection db) with
  | None =>
      patch_club_manager req db
      = (mkResponse 200 (Updated (mkUpdateResult 0 0 0 None)), db)
  | Some d =>
      id_conflict (body req) d = false →
      ∃ (i : nat) (n : nat),
        clubManagersCollection db !! i = Some d
        ∧ (patch_club_manager req db).1
          = mkResponse 200 (Updated (mkUpdateResult 1 n 0 None))
        ∧ clubManagersCollection (patch_club_manager req db).2
          = <[i := apply_set (body req) d]> (clubManagersCollection db)
  end.
Proof.
  intros Hid. unfold patch_club_manager, try_catch, bind, lift, ret.
  rewrite Hid.
  destruct (findOne_in _ (clubManagersCollection db)) as [d|] eqn:Hf.
  - intros Hc.
    destruct (updateOne_rewrites ClubManagers {[ "_id" := VOid oid ]}
                (body req) db d Hf Hc) as (i & Hi & ->).
    exists i. eexists. split; [exact Hi|].
    destruct (is_str "approved" (body req !! "status")).
    + destruct (promote_applicant_run {[ "_id" := VOid oid ]}
                  (set_coll ClubManagers
                     (<[i := apply_set (body req) d]>
                        (get_coll ClubManagers db)) db))
        as (db2 & -> & Hsame).
      split; [reflexivity|]. simpl. rewrite Hsame. by destruct db.
    + split; [reflexivity|]. by destruct db.
  - rewrite (updateOne_no_match ClubManagers _ _ db Hf).
    destruct (is_str "approved" (body req !! "status")); [|reflexivity].
    unfold promote_applicant, bind, findOne, ret, get_coll. by rewrite Hf.
Qed.

(** What [PATCH /clubs/:id/members/:email/status] writes with an accepted
    status: the membership of the pair, whatever its status, gets the
    requested one. *)
Lemma patch_member_status_write (req : Request) (db : DB) :
  let key := member_key (route_param req "id") (route_param req "email") in
  let st := body req !! "status" in
  is_str "active" st || is_str "rejected" st = true →
  match findOne_in key (membershipsCollection db) with
  | None =>
      patch_member_status req db
      = (mkResponse 200 (Updated (mkUpdateResult 0 0 0 None)), db)
  | Some d =>
      ∃ i : nat,
        membershipsCollection db !! i = Some d
        ∧ membershipsCollection (patch_member_status req db).2
          = <[i := <["status" := bson st]> d]> (membershipsCollection db)
        ∧ (is_str "active" st = false ∨ d !! "status" = st →
           ∃ n : nat,
             (patch_member_status req db).1
             = mkResponse 200 (Updated (mkUpdateResult 1 n 0 None)))
  end.
Proof.
  intros key st Hvalid.
  rewrite patch_member_status_run by exact Hvalid. fold key st.
  destruct (findOne_in key (membershipsCollection db)) as [d|] eqn:Hf.
  - destruct (update_first_found key {[ "status" := bson st ]} _ d Hf)
      as (i & Hi & ->); [reflexivity|].
    exists i. split; [exact Hi|].
    assert (Hset : apply_set {[ "status" := bson st ]} d
                   = <["status" := bson st]> d).
    { unfold apply_set. by rewrite <- insert_union_singleton_l. }
    rewrite Hset. split.
    + destruct (Nat.ltb 0 _ && is_str "active" st); by destruct db.
    + intros Hcase.
      assert (Hguard : Nat.ltb 0 (if changes {[ "status" := bson st ]} d
                                  then 1 else 0)
                       && is_str "active" st = false).
      { destruct Hcase as [Hna|Hsame]; [by rewrite Hna, andb_false_r|].
        assert (Hch : changes {[ "status" := bson st ]} d = false).
        { unfold changes. apply negb_false_iff, bool_decide_eq_true_2.
          apply map_Forall_singleton. rewrite Hsame.
          destruct st as [v|]; [reflexivity|].
          exfalso. simpl in Hvalid. discriminate Hvalid. }
        by rewrite Hch. }
      rewrite Hguard. by eexists.
  - apply (update_first_None key {[ "status" := bson st ]}) in Hf.
    by rewrite Hf.
Qed.

(** C3, as the code has it: the write of each of the three transition
    handlers is keyed by the entity alone (the [_id], or the
    (clubId, userEmail) pair) and does not look at the stored status; no
    answer is 409, and an answer that carries an update result, zero rows
    included, is a 200.  With an id that parses, [PATCH /memberships/:id]
    gives the document with that id the requested status whatever status it
    had and answers 200, and [PATCH /club-managers/:id] gives it the fields
    of a body that is a plain [$set] and keeps its [_id], whatever status it
    had, and answers 200.  With an accepted status,
    [PATCH /clubs/:id/members/:email/status] gives the membership of the pair
    the requested status whatever status it had, and answers 200 when the
    requested status is rejected or is the stored one.  Each of the three,
    when no document has the key, answers 200 with zero counts and leaves
    the database as it was. *)
Theorem lifecycle_writes_keyed_by_entity (req : Request) (db : DB) :
  (∀ (oid : N) (d : doc) (v : value),
     matches {[ "_id" := VOid oid ]} (<["status" := v]> d)
     = matches {[ "_id" := VOid oid ]} d)
  ∧ (∀ (C E : string) (d : doc) (v : value),
       matches (member_key C E) (<["status" := v]> d)
       = matches (member_key C E) d)
  ∧ (∀ h : handler,
       h ∈ [patch_membership; patch_club_manager; patch_member_status] →
       status (h req db).1 ≠ 409
       ∧ ∀ r, sent (h req db).1 = Updated r → status (h req db).1 = 200)
  ∧ (∀ oid : N,
       new_ObjectId (route_param req "id") = Ok oid →
       match findOne_in {[ "_id" := VOid oid ]} (membershipsCollection db) with
       | None =>
           patch_membership req db
           = (mkResponse 200 (Updated (mkUpdateResult 0 0 0 None)), db)
       | Some d =>
           ∃ (i : nat) (n : nat),
             membershipsCollection db !! i = Some d
             ∧ patch_membership req db
               = (mkResponse 200 (Updated (mkUpdateResult 1 n 0 None)),
                  set_coll Memberships
                    (<[i := <["status" := bson (body req !! "status")]> d]>
                       (membershipsCollection db)) db)
       end)
  ∧ (∀ oid : N,
       new_ObjectId (route_param req "id") = Ok oid →
       plain_set (body req) = true →
       match findOne_in {[ "_id" := VOid oid ]}
               (clubManagersCollection db) with
       | None =>
           patch_club_manager req db
           = (mkResponse 200 (Updated (mkUpdateResult 0 0 0 None)), db)
       | Some d =>
           id_conflict (body req) d = false →
           ∃ (i : nat) (n : nat),
             clubManagersCollection db !! i = Some d
             ∧ (patch_club_manager req db).1
               = mkResponse 200 (Updated (mkUpdateResult 1 n 0 None))
             ∧ clubManagersCollection (patch_club_manager req db).2
               = <[i := apply_set (body req) d]> (clubManagersCollection db)
       end)
  ∧ (let key := member_key (route_param req "id") (route_param req "email") in
     let st := body req !! "status" in
     is_str "active" st || is_str "rejected" st = true →
     match findOne_in key (membershipsCollection db) with
     | None =>
         patch_member_status req db
         = (mkResponse 200 (Updated (mkUpdateResult 0 0 0 None)), db)
     | Some d =>
         ∃ i : nat,
           membershipsCollection db !! i = Some d
           ∧ membershipsCollection (patch_member_status req db).2
             = <[i := <["status" := bson st]> d]> (membershipsCollection db)
           ∧ (is_str "active" st = false ∨ d !! "status" = st →
              ∃ n : nat,
                (patch_member_status req db).1
                = mkResponse 200 (Updated (mkUpdateResult 1 n 0 None)))
     end).
Proof.
  split; [apply matches_id_ignores_status|].
  split; [apply matches_key_ignores_status|].
  split; [|split; [apply patch_membership_write|split]].
  - intros h Hh.
    assert (Hans : (∃ r, (h req db).1 = mkResponse 200 (Updated r))
                   ∨ (∃ c m, c ≠ 409
                        ∧ (h req db).1 = mkResponse c (Message m))).
    { apply elem_of_cons in Hh as [->|Hh].
      { destruct (patch_membership_answer req db) as [?|[m Hm]]; [by left|].
        right. exists 500, m. split; [lia|exact Hm]. }
      apply elem_of_cons in Hh as [->|Hh].
      { destruct (patch_club_manager_answer req db) as [?|[m Hm]]; [by left|].
        right. exists 500, m. split; [lia|exact Hm]. }
      apply list_elem_of_singleton in Hh as ->.
      apply patch_member_status_answer. }
    destruct Hans as [[r ->]|(c & m & Hc & ->)]; simpl.
    + split; [lia|reflexivity].
    + split; [exact Hc|discriminate].
  - intros oid Hid _. exact (patch_club_manager_write req db oid Hid).
  - exact (patch_member_status_write req db).
Qed.

Lemma lifecycle_writes_keyed_by_entity_witness :
  (status (patch_membership Scenario.reject_bob
             (Scenario.db_membership "active")).1 ≠ 409
   ∧ ∀ r, sent (patch_membership Scenario.reject_bob
                  (Scenario.db_membership "active")).1 = Updated r →
          status (patch_membership Scenario.reject_bob
                    (Scenario.db_membership "active")).1 = 200)
  ∧ (∃ (i : nat) (n : nat),
       membershipsCollection (Scenario.db_membership "active") !! i
       = Some (Scenario.bob_membership "active")
       ∧ patch_membership Scenario.reject_bob (Scenario.db_membership "active")
         = (mkResponse 200 (Updated (mkUpdateResult 1 n 0 None)),
            set_coll Memberships
              (<[i := <["status" := bson (body Scenario.reject_bob !! "status")]>
                        (Scenario.bob_membership "active")]>
                 (membershipsCollection (Scenario.db_membership "active")))
              (Scenario.db_membership "active")))
  ∧ (∃ (i : nat) (n : nat),
       clubManagersCollection (Scenario.db_application "approved") !! i
       = Some (<["status" := VStr "approved"]> Scenario.alice_application)
       ∧ (patch_club_manager Cases.reject_application
            (Scenario.db_application "approved")).1
         = mkResponse 200 (Updated (mkUpdateResult 1 n 0 None))
       ∧ clubManagersCollection
           (patch_club_manager Cases.reject_application
              (Scenario.db_application "approved")).2
         = <[i := <["status" := VStr "rejected"]> Scenario.alice_application]>
             (clubManagersCollection (Scenario.db_application "approved")))
  ∧ (∃ i : nat,
       membershipsCollection (Scenario.db_membership "active") !! i
       = Some (Scenario.bob_membership "active")
       ∧ membershipsCollection
           (patch_member_status Cases.reject_member
              (Scenario.db_membership "active")).2
         = <[i := Scenario.bob_membership "rejected"]>
             (membershipsCollection (Scenario.db_membership "active"))
       ∧ ∃ n : nat,
           (patch_member_status Cases.reject_member
              (Scenario.db_membership "active")).1
           = mkResponse 200 (Updated (mkUpdateResult 1 n 0 None))).
Proof.
  split; [|split; [|split]].
  - pose proof (lifecycle_writes_keyed_by_entity Scenario.reject_bob
                  (Scenario.db_membership "active")) as (_ & _ & H3 & _).
    apply H3. left.
  - pose proof (lifecycle_writes_keyed_by_entity Scenario.reject_bob
                  (Scenario.db_membership "active")) as (_ & _ & _ & H4 & _).
    apply (H4 177%N). vm_compute. reflexivity.
  - pose proof (lifecycle_writes_keyed_by_entity Cases.reject_application
                  (Scenario.db_application "approved"))
      as (_ & _ & _ & _ & H5 & _).
    assert (Hid : new_ObjectId (route_param Cases.reject_application "id")
                  = Ok 161%N) by (vm_compute; reflexivity).
    assert (Hplain : plain_set (body Cases.reject_application) = true)
      by (vm_compute; reflexivity).
    specialize (H5 161%N Hid Hplain).
    assert (Hf : findOne_in {[ "_id" := VOid 161 ]}
                   (clubManagersCollection
                      (Scenario.db_application "approved"))
                 = Some (<["status" := VStr "approved"]>
                           Scenario.alice_application))
      by (vm_compute; reflexivity).
    rewrite Hf in H5.
    assert (Hc : id_conflict (body Cases.reject_application)
                   (<["status" := VStr "approved"]> Scenario.alice_application)
                 = false) by (vm_compute; reflexivity).
    destruct (H5 Hc) as (i & n & Hi & Hans & Hw).
    exists i, n. split; [exact Hi|split; [exact Hans|]].
    rewrite Hw. vm_compute. reflexivity.
  - pose proof (lifecycle_writes_keyed_by_entity Cases.reject_member
                  (Scenario.db_membership "active"))
      as (_ & _ & _ & _ & _ & H6).
    assert (Hv : is_str "active" (body Cases.reject_member !! "status")
                 || is_str "rejected" (body Cases.reject_member !! "status")
                 = true) by (vm_compute; reflexivity).
    specialize (H6 Hv).
    assert (Hf : findOne_in
                   (member_key (route_param Cases.reject_member "id")
                      (route_param Cases.reject_member "email"))
                   (membershipsCollection (Scenario.db_membership "active"))
                 = Some (Scenario.bob_membership "active"))
      by (vm_compute; reflexivity).
    rewrite Hf in H6.
    destruct H6 as (i & Hi & Hw & Hans).
    exists i. split; [exact Hi|split].
    + rewrite Hw. vm_compute. reflexivity.
    + apply Hans. left. vm_compute. reflexivity.
Defined.

(** The claim of C3 fails on the code: no transition handler answers 409
    when its write modified nothing.  The request names a membership id that
    is not stored, an application id that is not stored, and a member pair
    without membership. *)
Lemma lifecycle_conflict_not_surfaced :
  ¬ surfaces_conflict patch_membership
  ∧ ¬ surfaces_conflict patch_club_manager
  ∧ ¬ surfaces_conflict patch_member_status.
Proof.
  split; [|split]; intros H.
  - specialize (H Scenario.activate_missing Scenario.db0
                  (mkUpdateResult 0 0 0 None)).
    vm_compute in H. specialize (H eq_refl eq_refl). discriminate.
  - specialize (H Scenario.activate_missing Scenario.db0
                  (mkUpdateResult 0 0 0 None)).
    vm_compute in H. specialize (H eq_refl eq_refl). discriminate.
  - specialize (H Scenario.activate_stranger Scenario.db0
                  (mkUpdateResult 0 0 0 None)).
    vm_compute in H. specialize (H eq_refl eq_refl). discriminate.
Qed.

(** ** The club-owner guard *)

(** X3: with a verified string email and an id that parses, the guard
    answers 404 when no club has the id, and otherwise admits exactly when
    the stored [userEmail] of the club is that email, answering 403 if
    not. *)
Lemma verifyClubPermission_decision (req : Request) (db : DB) (tok : doc)
    (e clubId : string) (oid : N) :
  user req = Some tok → tok !! "email" = Some (VStr e) →
  params req !! "id" = Some clubId → new_ObjectId clubId = Ok oid →
  match findOne_in {[ "_id" := VOid oid ]} (clubsCollection db) with
  | None =>
      verifyClubPermission req db
      = Reply (mkResponse 404 (Message "Club not found."))
  | Some club =>
      if decide (club !! "userEmail" = Some (VStr e)) then
        verifyClubPermission req db = Next req
      else
        verifyClubPermission req db
        = Reply (mkResponse 403 (Message
            "Forbidden: You are not the manager of this club."))
  end.
Proof.
  intros Hu He Hp Hid. unfold verifyClubPermission.
  rewrite Hu, Hp, He.
  destruct (String.eqb clubId "") eqn:Hempty.
  { apply String.eqb_eq in Hempty. subst clubId. discriminate. }
  rewrite Hid.
  destruct (findOne_in _ (clubsCollection db)) as [club|]; [|reflexivity].
  case_decide as Hown.
  - rewrite Hown. simpl. by rewrite String.eqb_refl.
  - destruct (club !! "userEmail") as [[]|]; simpl; try reflexivity.
    destruct (String.eqb s e) eqn:Hse; [|reflexivity].
    apply String.eqb_eq in Hse. subst s. by destruct Hown.
Qed.

(** A missing or empty club id is answered 400 before any lookup. *)
Lemma verifyClubPermission_missing_id (req : Request) (db : DB) (tok : doc) :
  user req = Some tok →
  params req !! "id" = None ∨ params req !! "id" = Some "" →
  verifyClubPermission req db
  = Reply (mkResponse 400 (Message "Club ID is required.")).
Proof.
  intros Hu [Hp|Hp]; unfold verifyClubPermission; by rewrite Hu, Hp.
Qed.

(** C4 on the code: a club id that is present but not an ObjectId is
    answered 500 by the guard, not 400. *)
Theorem club_guard_malformed_id :
  new_ObjectId "not-an-id" = Throw
  ∧ verifyClubPermission Scenario.malformed_club_request Scenario.db0
    = Reply (mkResponse 500
        (Message "Internal Server Error during permission check.")).
Proof. split; vm_compute; reflexivity. Qed.

(** ** Approving a manager application *)

(** C1 on the code: Alice's application is stored with her email.  Mallory's
    approval request that names Mallory's email in the body rewrites the
    stored email and promotes Mallory; the same request without the email
    field promotes Alice. *)
Theorem approval_promotes_body_email :
  findOne_in {[ "_id" := VOid 161 ]} (clubManagersCollection Scenario.db0)
    ≫= (λ d : doc, d !! "email") = Some (VStr "alice@x.com")
  ∧ Scenario.approve_with_email
    = set_body Scenario.approve_plain
        (<["email" := VStr "mallory@x.com"]> (body Scenario.approve_plain))
  ∧ (let db1 :=
       (route_patch_club_manager Scenario.authority
          Scenario.approve_with_email Scenario.db0).2 in
     role_of "alice@x.com" db1 = Some (VStr "member")
     ∧ role_of "mallory@x.com" db1 = Some (VStr "club_manager")
     ∧ findOne_in {[ "_id" := VOid 161 ]} (clubManagersCollection db1)
         ≫= (λ d : doc, d !! "email") = Some (VStr "mallory@x.com"))
  ∧ (let db2 :=
       (route_patch_club_manager Scenario.authority
          Scenario.approve_plain Scenario.db0).2 in
     role_of "alice@x.com" db2 = Some (VStr "club_manager")
     ∧ role_of "mallory@x.com" db2 = Some (VStr "member")).
Proof.
  split; [vm_compute; reflexivity|]. split; [reflexivity|].
  split; repeat split; vm_compute; reflexivity.
Qed.

(** C2 on the code: the route of [PATCH /club-managers/:id] has the
    credential verifier only.  Mallory, whose stored role is member, approves
    Alice's application: the answer is 200, the application is approved and
    Alice is promoted.  With [verifySuperAdmin] in the route, as on the
    admin routes, the same request is answered 403 and changes nothing. *)
Theorem member_approves_application :
  role_of "mallory@x.com" Scenario.db0 = Some (VStr "member")
  ∧ (let out :=
       route_patch_club_manager Scenario.authority Scenario.approve_plain
         Scenario.db0 in
     status out.1 = 200
     ∧ status_of ClubManagers {[ "_id" := VOid 161 ]} out.2
       = Some (VStr "approved")
     ∧ role_of "alice@x.com" out.2 = Some (VStr "club_manager"))
  ∧ run_route [verifyFBToken Scenario.authority; verifySuperAdmin]
      patch_club_manager Scenario.approve_plain Scenario.db0
    = (mkResponse 403 (Message "forbidden access"), Scenario.db0).
Proof. repeat split; vm_compute; reflexivity. Qed.

(** The guard itself fails closed: without a stored super_admin role for the
    verified email, the answer is 403. *)
Lemma verifySuperAdmin_fails_closed (req : Request) (db : DB) (tok : doc) :
  user req = Some tok →
  (findOne_in {[ "email" := bson (tok !! "email") ]} (usersCollection db)
     ≫= (λ u : doc, u !! "role")) ≠ Some (VStr "super_admin") →
  verifySuperAdmin req db
  = Reply (mkResponse 403 (Message "forbidden access")).
Proof.
  intros Hu Hrole. unfold verifySuperAdmin. rewrite Hu.
  destruct (is_str "super_admin" _) eqn:Hs; [|reflexivity].
  apply is_str_true in Hs. by destruct Hrole.
Qed.

(** * Further properties of the handlers *)

(** ** The credential verifier and the guards *)

Lemma split_on_no_space (t : string) :
  has_space t = false → split_on " "%char t = [t].
Proof.
  induction t as [|a t IH]; simpl; [reflexivity|].
  intros [Ha Ht]%orb_false_iff. rewrite Ha, (IH Ht). reflexivity.
Qed.

Lemma split_on_words (scheme rest : string) :
  has_space scheme = false →
  split_on " "%char (String.append scheme (String " "%char rest))
  = scheme :: split_on " "%char rest.
Proof.
  induction scheme as [|a s IH]; simpl; [reflexivity|].
  intros [Ha Hs]%orb_false_iff. rewrite Ha, (IH Hs). reflexivity.
Qed.

(** X1: the verifier takes the second space-separated word of the header as
    the token and never looks at the first one: with any scheme word
    (Bearer, Basic, even none before the space) the request goes on with the
    decoded token as [req.user] when the authority accepts the token, and
    is answered 403 when it does not. *)
Theorem verifyFBToken_reads_second_word (vit : string → option doc)
    (req : Request) (db : DB) (scheme token : string) :
  authorization req = Some (String.append scheme (String " "%char token)) →
  has_space scheme = false → has_space token = false → token ≠ "" →
  verifyFBToken vit req db
  = match vit token with
    | Some decodedToken => Next (with_user req decodedToken)
    | None => Reply (mkResponse 403 (Message "Forbidden"))
    end.
Proof.
  intros Hauth Hs Ht Hne.
  rewrite verifyFBToken_extract, Hauth. unfold extractable_token.
  rewrite (split_on_words _ _ Hs), (split_on_no_space _ Ht).
  destruct (String.eqb token "") eqn:He; [|reflexivity].
  apply String.eqb_eq in He. contradiction.
Qed.

Lemma verifyFBToken_reads_second_word_witness :
  verifyFBToken Scenario.authority
    (Scenario.request (Some "Basic tok-alice") [] ∅ 1) Scenario.db0
  = Next (with_user (Scenario.request (Some "Basic tok-alice") [] ∅ 1)
            {[ "email" := VStr "alice@x.com" ]}).
Proof.
  apply (verifyFBToken_reads_second_word Scenario.authority
           (Scenario.request (Some "Basic tok-alice") [] ∅ 1) Scenario.db0
           "Basic" "tok-alice"); [reflexivity|reflexivity|reflexivity|].
  discriminate.
Defined.

(** X2: behind the credential verifier, the super-admin guard admits exactly
    when the first user stored with the verified email has role
    super_admin; in every other case, a missing user or a missing role
    included, it answers 403. *)
Theorem verifySuperAdmin_admits_iff (req : Request) (db : DB) (tok : doc) :
  user req = Some tok →
  (verifySuperAdmin req db = Next req
   ↔ findOne_in {[ "email" := bson (tok !! "email") ]} (usersCollection db)
       ≫= (λ u : doc, u !! "role") = Some (VStr "super_admin"))
  ∧ (verifySuperAdmin req db = Next req
     ∨ verifySuperAdmin req db
       = Reply (mkResponse 403 (Message "forbidden access"))).
Proof.
  intros Hu. unfold verifySuperAdmin. rewrite Hu.
  destruct (is_str "super_admin" _) eqn:Hs.
  - apply is_str_true in Hs. split; [|by left]. split; [|reflexivity].
    intros _. exact Hs.
  - split; [|by right]. split; [discriminate|].
    intros Hrole. rewrite Hrole in Hs. simpl in Hs. discriminate.
Qed.

Lemma verifySuperAdmin_admits_iff_witness :
  verifySuperAdmin
    (with_user (Scenario.request None [] ∅ 1)
       {[ "email" := VStr "root@x.com" ]}) Scenario.db0
  = Next (with_user (Scenario.request None [] ∅ 1)
            {[ "email" := VStr "root@x.com" ]}).
Proof.
  apply (proj1 (verifySuperAdmin_admits_iff
                  (with_user (Scenario.request None [] ∅ 1)
                     {[ "email" := VStr "root@x.com" ]})
                  Scenario.db0 {[ "email" := VStr "root@x.com" ]} eq_refl)).
  vm_compute. reflexivity.
Defined.

(** X4: on a route registered with the credential verifier and the
    super-admin guard, the handler runs only for a token that the authority
    accepts and whose email is stored with role super_admin; any other
    request is answered 401 or 403, the same whatever the handler, with the
    database unchanged. *)
Theorem admin_route_guarded (vit : string → option doc) (h : handler)
    (req : Request) (db : DB) :
  (∃ (t : string) (tok : doc),
     extractable_token (authorization req) = Some t ∧ vit t = Some tok
     ∧ findOne_in {[ "email" := bson (tok !! "email") ]} (usersCollection db)
         ≫= (λ u : doc, u !! "role") = Some (VStr "super_admin")
     ∧ admin_route vit h req db = h (with_user req tok) db)
  ∨ ((status (admin_route vit h req db).1 = 401
      ∨ status (admin_route vit h req db).1 = 403)
     ∧ (admin_route vit h req db).2 = db
     ∧ ∀ h' : handler, admin_route vit h' req db = admin_route vit h req db).
Proof.
  unfold admin_route. simpl. rewrite verifyFBToken_extract.
  destruct (extractable_token (authorization req)) as [t|] eqn:Ht.
  - destruct (vit t) as [tok|] eqn:Hv.
    + unfold verifySuperAdmin. simpl.
      destruct (is_str "super_admin" _) eqn:Hs.
      * left. exists t, tok. apply is_str_true in Hs. by repeat split.
      * right. simpl. split; [by right|]. by split.
    + right. simpl. split; [by right|]. by split.
  - right. simpl. split; [by left|]. by split.
Qed.

(** ** Users *)

(** [PATCH /users/admin/:id] leaves the database as it is or as one update
    of the users with its [$set] document leaves it. *)
Lemma patch_user_admin_state (req : Request) (db : DB) :
  (patch_user_admin req db).2 = db
  ∨ ∃ oid : N,
      (patch_user_admin req db).2
      = (updateOne Users {[ "_id" := VOid oid ]}
           (set_when (truthy (body req !! "status")) "status"
              (body req !! "status")
              (set_when (truthy (body req !! "role")) "role"
                 (body req !! "role") ∅)) ∅ false db).2.
Proof.
  unfold patch_user_admin, try_catch, bind, lift, ret.
  destruct (new_ObjectId (route_param req "id")) as [oid|]; [|by left].
  right. exists oid.
  destruct (updateOne Users _ _ ∅ false db) as [[r|] db']; reflexivity.
Qed.

(** X5: an admin update of a user sets the role and the status only, and
    each only when the body gives a truthy value for it: every other field
    of every user, and every other collection, is as before. *)
Theorem patch_user_admin_frame (req : Request) (db : DB) :
  (∀ m : coll, m ≠ Users →
     get_coll m (patch_user_admin req db).2 = get_coll m db)
  ∧ (∀ k : string, k ≠ "role" → k ≠ "status" →
       (λ d : doc, d !! k) <$> usersCollection (patch_user_admin req db).2
       = (λ d : doc, d !! k) <$> usersCollection db)
  ∧ (truthy (body req !! "role") = false →
     (λ d : doc, d !! "role") <$> usersCollection (patch_user_admin req db).2
     = (λ d : doc, d !! "role") <$> usersCollection db)
  ∧ (truthy (body req !! "status") = false →
     (λ d : doc, d !! "status")
       <$> usersCollection (patch_user_admin req db).2
     = (λ d : doc, d !! "status") <$> usersCollection db).
Proof.
  destruct (patch_user_admin_state req db) as [->|[oid ->]];
    [by repeat split|].
  split; [|split; [|split]].
  - intros m Hm. apply updateOne_other. congruence.
  - intros k Hr Hs.
    apply (updateOne_keeps (λ d : doc, d !! k) Users _ _ db) with (m := Users).
    intros d. apply apply_set_lookup_other.
    rewrite !set_when_lookup_ne by congruence. apply lookup_empty.
  - intros Hrole. rewrite Hrole.
    apply (updateOne_keeps (λ d : doc, d !! "role") Users _ _ db)
      with (m := Users).
    intros d. apply apply_set_lookup_other.
    rewrite set_when_lookup_ne by discriminate. apply lookup_empty.
  - intros Hst. rewrite Hst.
    apply (updateOne_keeps (λ d : doc, d !! "status") Users _ _ db)
      with (m := Users).
    intros d. apply apply_set_lookup_other. unfold set_when at 1.
    rewrite set_when_lookup_ne by discriminate. apply lookup_empty.
Qed.

(** X6: a profile update sets the name and the photo only, so it cannot
    change a role, an email or an id; it rewrites the first user stored
    with the email of the path (a field missing from the body is stored as
    null), and answers 200 with zero counts when there is none. *)
Theorem patch_user_profile_frame (req : Request) (db : DB) :
  (∀ m : coll, m ≠ Users →
     get_coll m (patch_user_profile req db).2 = get_coll m db)
  ∧ (∀ k : string, k ≠ "name" → k ≠ "photoURL" →
       (λ d : doc, d !! k) <$> usersCollection (patch_user_profile req db).2
       = (λ d : doc, d !! k) <$> usersCollection db)
  ∧ match findOne_in {[ "email" := VStr (route_param req "email") ]}
            (usersCollection db) with
    | None =>
        patch_user_profile req db
        = (mkResponse 200 (Updated (mkUpdateResult 0 0 0 None)), db)
    | Some u =>
        ∃ (i n : nat) (u' : doc),
          usersCollection db !! i = Some u
          ∧ patch_user_profile req db
            = (mkResponse 200 (Updated (mkUpdateResult 1 n 0 None)),
               set_coll Users (<[i := u']> (usersCollection db)) db)
          ∧ u' !! "name" = Some (bson (body req !! "name"))
          ∧ u' !! "photoURL" = Some (bson (body req !! "photoURL"))
    end.
Proof.
  set (s := (<["name" := bson (body req !! "name")]>
               (<["photoURL" := bson (body req !! "photoURL")]> ∅) : doc)).
  set (f := ({[ "email" := VStr (route_param req "email") ]} : doc)).
  assert (Hst : (patch_user_profile req db).2
                = (updateOne Users f s ∅ false db).2).
  { unfold patch_user_profile, try_catch, bind, ret. fold s f.
    destruct (updateOne Users f s ∅ false db) as [[r|] db']; reflexivity. }
  split; [|split].
  - intros m Hm. rewrite Hst. apply updateOne_other. congruence.
  - intros k Hn Hp. rewrite Hst.
    apply (updateOne_keeps (λ d : doc, d !! k) Users f s db) with (m := Users).
    intros d. apply apply_set_lookup_other. unfold s.
    rewrite !lookup_insert_ne by congruence. apply lookup_empty.
  - destruct (findOne_in f (usersCollection db)) as [u|] eqn:Hf.
    + destruct (updateOne_found Users f s db u Hf) as (i & Hi & Hu);
        [reflexivity|].
      exists i, (if changes s u then 1 else 0), (apply_set s u).
      split; [exact Hi|]. split.
      * unfold patch_user_profile, try_catch, bind, ret. fold s f.
        rewrite Hu. reflexivity.
      * split; apply apply_set_lookup_set; unfold s.
        -- apply lookup_insert_eq.
        -- rewrite lookup_insert_ne by discriminate. apply lookup_insert_eq.
    + unfold patch_user_profile, try_catch, bind, ret. fold s f.
      rewrite (updateOne_no_match Users f s db Hf). reflexivity.
Qed.

Lemma findOne_in_snoc (f : doc) (c : list doc) (d : doc) :
  findOne_in f c = None → matches f d = true →
  findOne_in f (c ++ [d]) = Some d.
Proof.
  intros Hn Hd. apply findOne_in_split; [|exact Hd].
  by apply findOne_in_None_Forall.
Qed.

(** X7: registration and the role lookup compose: after a registration
    with a string email that is answered 201, [GET /users/role/:email] for
    that email answers 200 with role member, and reads only. *)
Theorem registered_user_reads_member (req req' : Request) (db : DB)
    (e : string) :
  body req !! "email" = Some (VStr e) →
  status (post_users req db).1 = 201 →
  route_param req' "email" = e →
  get_user_role req' (post_users req db).2
  = (mkAnswer 200 (RoleOnly (Some (VStr "member"))), (post_users req db).2).
Proof.
  intros He H201 Hp. revert H201. rewrite post_users_cases. simpl.
  rewrite He. simpl.
  destruct (findOne_in _ (usersCollection db)) eqn:Hf; [discriminate|].
  destruct (insertOne_in _ _ _) as [[v c']|] eqn:Hi; [|discriminate].
  intros _. apply insertOne_in_Ok in Hi as (d' & -> & Hd'). simpl.
  unfold get_user_role, try_catch_with, bind, findOne, answer, ret.
  rewrite Hp. simpl.
  rewrite (findOne_in_snoc _ _ d' Hf).
  - rewrite Hd' by discriminate. by rewrite lookup_insert_eq.
  - rewrite matches_singleton, Hd' by discriminate.
    rewrite lookup_insert_ne by discriminate. rewrite He.
    apply field_matches_refl.
Qed.

Lemma registered_user_reads_member_witness :
  get_user_role (Scenario.request None [("email", "carol@x.com")] ∅ 5)
    (post_users Scenario.register_carol Scenario.db0).2
  = (mkAnswer 200 (RoleOnly (Some (VStr "member"))),
     (post_users Scenario.register_carol Scenario.db0).2).
Proof.
  apply (registered_user_reads_member Scenario.register_carol
           (Scenario.request None [("email", "carol@x.com")] ∅ 5)
           Scenario.db0 "carol@x.com"); vm_compute; reflexivity.
Defined.

(** ** Uniqueness of a string key under insert-if-absent *)

Lemma count_matching_snoc (f : doc) (c : list doc) (d : doc) :
  count_matching f (c ++ [d])
  = count_matching f c + (if matches f d then 1 else 0).
Proof.
  unfold count_matching. rewrite List.filter_app, length_app. simpl.
  by destruct (matches f d).
Qed.

Lemma count_matching_none (f : doc) (c : list doc) :
  findOne_in f c = None → count_matching f c = 0.
Proof.
  intros H. unfold count_matching.
  by rewrite (filter_no_match _ _ (findOne_in_None_Forall _ _ H)).
Qed.

Lemma unique_by_nil (k : string) : unique_by k [].
Proof. intros s. unfold count_matching. simpl. lia. Qed.

(** Appending a document whose key was looked up and not found keeps the
    key unique, unless the key of the document is an array. *)
Lemma unique_by_snoc (k : string) (c : list doc) (d : doc) :
  findOne_in {[ k := bson (d !! k) ]} c = None →
  is_array (d !! k) = false →
  unique_by k c → unique_by k (c ++ [d]).
Proof.
  intros Hf Harr Hu s. rewrite count_matching_snoc, matches_singleton.
  specialize (Hu s).
  destruct (field_matches (d !! k) (VStr s)) eqn:Hm; [|lia].
  assert (Hk : d !! k = Some (VStr s)).
  { destruct (d !! k) as [[]|]; simpl in *; try discriminate.
    apply String.eqb_eq in Hm. by subst. }
  rewrite Hk in Hf. simpl in Hf.
  rewrite (count_matching_none _ _ Hf). lia.
Qed.

Lemma count_matching_field (k : string) (q : value) (c c' : list doc) :
  (λ d : doc, d !! k) <$> c' = (λ d : doc, d !! k) <$> c →
  count_matching {[ k := q ]} c' = count_matching {[ k := q ]} c.
Proof.
  unfold count_matching. revert c'.
  induction c as [|d c IH]; intros [|d' c'] H; try discriminate;
    [reflexivity|].
  injection H as Hd Hc. simpl. rewrite !matches_singleton, Hd.
  destruct (field_matches (d !! k) q); simpl; by rewrite (IH _ Hc).
Qed.

(** X8: registration keeps the emails of the users unique: unless the body
    gives an array as email, no string is the email of two users after
    [POST /users] if none was before. *)
Theorem post_users_keeps_emails_unique (req : Request) (db : DB) :
  is_array (body req !! "email") = false →
  unique_by "email" (usersCollection db) →
  unique_by "email" (usersCollection (post_users req db).2).
Proof.
  intros Harr Hu. rewrite post_users_cases. simpl.
  destruct (findOne_in _ (usersCollection db)) eqn:Hf; [exact Hu|].
  destruct (insertOne_in _ _ _) as [[v c']|] eqn:Hi; [|exact Hu].
  apply insertOne_in_Ok in Hi as (d' & -> & Hd'). simpl.
  assert (He : d' !! "email" = body req !! "email").
  { rewrite Hd' by discriminate. by rewrite lookup_insert_ne. }
  apply unique_by_snoc; [by rewrite He|by rewrite He|exact Hu].
Qed.

Lemma post_users_keeps_emails_unique_witness :
  unique_by "email"
    (usersCollection (post_users Scenario.register_carol Scenario.db0).2).
Proof.
  apply (post_users_keeps_emails_unique Scenario.register_carol Scenario.db0).
  - reflexivity.
  - change (usersCollection Scenario.db0)
      with ((([] ++ [Scenario.alice]) ++ [Scenario.mallory])
            ++ [Scenario.root])%list.
    repeat (apply unique_by_snoc; [vm_compute; reflexivity|reflexivity|]).
    apply unique_by_nil.
Defined.

(** ** Clubs *)

Lemma insertOne_in_Throw (d : doc) (fresh : N) (c : list doc) :
  insertOne_in d fresh c = Throw → is_Some (d !! "_id").
Proof.
  unfold insertOne_in. destruct (d !! "_id") as [v|]; [by eexists|].
  discriminate.
Qed.


Lemma hex_digit_is_hex (a : ascii) :
  is_hex a = true ↔ ∃ d, hex_digit a = Some d.
Proof.
  unfold is_hex, hex_digit.
  destruct ((48 <=? N_of_ascii a)%N && (N_of_ascii a <=? 57)%N);
    [simpl; split; [by eexists|reflexivity]|].
  destruct ((97 <=? N_of_ascii a)%N && (N_of_ascii a <=? 102)%N);
    [simpl; split; [by eexists|reflexivity]|].
  destruct ((65 <=? N_of_ascii a)%N && (N_of_ascii a <=? 70)%N); simpl.
  - split; [by eexists|reflexivity].
  - split; [intros H; discriminate H|intros [d Hd]; discriminate Hd].
Qed.

Lemma hex_value_Some (s : string) (acc : N) :
  forallb is_hex (list_ascii_of_string s) = true
  ↔ ∃ n, hex_value acc s = Some n.
Proof.
  revert acc. induction s as [|a s IH]; intros acc; simpl.
  - split; [by eexists|reflexivity].
  - rewrite andb_true_iff, hex_digit_is_hex.
    destruct (hex_digit a) as [d|].
    + rewrite (IH (16 * acc + d)%N). split; [by intros [_ H]|].
      intros H. split; [by eexists|exact H].
    + split; [by intros [[d Hd] _]|by intros [n Hn]].
Qed.

(** [ObjectId.isValid] accepts exactly the strings that [new ObjectId]
    does not throw on. *)
Lemma ObjectId_isValid_spec (s : string) :
  ObjectId_isValid s = true ↔ ∃ oid, new_ObjectId s = Ok oid.
Proof.
  unfold ObjectId_isValid, new_ObjectId.
  destruct (Nat.eqb (String.length s) 24); simpl.
  - rewrite (hex_value_Some s 0). destruct (hex_value 0 s) as [n|].
    + split; by eexists.
    + split; [by intros [n Hn]|by intros [n Hn]].
  - split; [discriminate|by intros [n Hn]].
Qed.

(** X10: [GET /clubs/:id] checks the id before building the ObjectId, so
    it never answers 500: an id that is not an ObjectId gets 400, an id
    without club 404, and otherwise the answer is the first club stored
    with the id; the database is only read. *)
Theorem get_club_answers (req : Request) (db : DB) :
  get_club req db
  = (match new_ObjectId (route_param req "id") with
     | Throw => mkAnswer 400 (Basic (Message "Invalid Club ID format."))
     | Ok oid =>
         match findOne_in {[ "_id" := VOid oid ]} (clubsCollection db) with
         | Some club => mkAnswer 200 (Doc club)
         | None => mkAnswer 404 (Basic (Message "Club not found."))
         end
     end, db).
Proof.
  unfold get_club, try_catch_with, bind, lift, findOne, answer, ret.
  destruct (ObjectId_isValid (route_param req "id")) eqn:Hv; simpl.
  - apply ObjectId_isValid_spec in Hv as [oid ->]. simpl.
    by destruct (findOne_in _ (clubsCollection db)).
  - destruct (new_ObjectId (route_param req "id")) as [oid|] eqn:Hn;
      [|reflexivity].
    assert (ObjectId_isValid (route_param req "id") = true)
      by (apply ObjectId_isValid_spec; by eexists).
    congruence.
Qed.

(** ** Memberships *)

Lemma delete_first_Some (f : doc) (c c' : list doc) :
  delete_first f c = Some c' →
  ∃ (l1 : list doc) (d : doc) (l2 : list doc),
    c = (l1 ++ d :: l2)%list ∧ c' = (l1 ++ l2)%list
    ∧ Forall (λ x, matches f x = false) l1 ∧ matches f d = true.
Proof.
  revert c'. induction c as [|d c IH]; simpl; intros c' H; [discriminate|].
  destruct (matches f d) eqn:Hm.
  - injection H as <-. exists [], d, c. by repeat split.
  - destruct (delete_first f c) as [c0|]; [|discriminate].
    injection H as <-.
    destruct (IH _ eq_refl) as (l1 & d0 & l2 & -> & -> & Hl1 & Hd0).
    exists (d :: l1), d0, l2. repeat split; try done. by constructor.
Qed.

Lemma deleteOne_spec (n : coll) (f : doc) (db : DB) :
  (∀ m : coll, m ≠ n → get_coll m (deleteOne n f db).2 = get_coll m db)
  ∧ ∃ k : nat,
      (deleteOne n f db).1 = Ok k ∧ (k ≤ 1)%nat
      ∧ length (get_coll n db) = length (get_coll n (deleteOne n f db).2) + k
      ∧ sublist (get_coll n (deleteOne n f db).2) (get_coll n db)
      ∧ (k = 0 ↔ findOne_in f (get_coll n db) = None).
Proof.
  unfold deleteOne.
  destruct (delete_first f (get_coll n db)) as [c'|] eqn:Hd; simpl.
  - split; [intros m Hm; destruct n, m; done|].
    exists 1. split; [reflexivity|]. split; [lia|].
    apply delete_first_Some in Hd as (l1 & d & l2 & Hc & -> & Hl1 & Hm).
    assert (Hget : get_coll n (set_coll n (l1 ++ l2)%list db)
                   = (l1 ++ l2)%list) by (by destruct n).
    rewrite Hget, Hc. split; [rewrite !length_app; simpl; lia|].
    split; [apply sublist_app; [reflexivity|by apply sublist_cons]|].
    split; [discriminate|].
    rewrite (findOne_in_split f l1 l2 d Hl1 Hm). discriminate.
  - split; [reflexivity|]. exists 0. split; [reflexivity|].
    split; [lia|]. split; [lia|]. split; [reflexivity|].
    split; [intros _|reflexivity].
    unfold findOne_in. clear -Hd.
    induction (get_coll n db) as [|d c IH]; simpl in *; [reflexivity|].
    destruct (matches f d); [discriminate|].
    destruct (delete_first f c); [discriminate|]. by apply IH.
Qed.

(** X11: leaving a club removes at most one membership, the first stored
    with the id, and nothing else: the role grants and every other
    collection are as before, so a grant written at activation survives the
    deletion of its membership.  The answer is 200 with the number of
    deleted documents, or 500 for an id that is not an ObjectId. *)
Theorem delete_membership_keeps_grants (req : Request) (db : DB) :
  (∀ m : coll, m ≠ Memberships →
     get_coll m (delete_membership req db).2 = get_coll m db)
  ∧ sublist (membershipsCollection (delete_membership req db).2)
      (membershipsCollection db)
  ∧ ∃ k : nat,
      (k ≤ 1)%nat
      ∧ length (membershipsCollection db)
        = length (membershipsCollection (delete_membership req db).2) + k
      ∧ ((delete_membership req db).1 = mkAnswer 200 (Deleted k)
         ∨ (k = 0 ∧ new_ObjectId (route_param req "id") = Throw
            ∧ (delete_membership req db).1
              = mkAnswer 500
                  (Basic (Message "Failed to delete membership.")))).
Proof.
  unfold delete_membership, try_catch_with, bind, lift, ret.
  destruct (new_ObjectId (route_param req "id")) as [oid|]; simpl.
  - destruct (deleteOne_spec Memberships {[ "_id" := VOid oid ]} db)
      as (Hother & k & Hk & Hle & Hlen & Hsub & _).
    destruct (deleteOne Memberships {[ "_id" := VOid oid ]} db)
      as [o db'] eqn:Hdel. simpl in *. subst o.
    split; [exact Hother|]. split; [exact Hsub|].
    exists k. split; [exact Hle|]. split; [exact Hlen|]. by left.
  - split; [reflexivity|]. split; [reflexivity|].
    exists 0. split; [lia|]. split; [lia|]. right. by repeat split.
Qed.

(** The document that [POST /memberships] inserts. *)
Lemma post_memberships_cases (req : Request) (db : DB) :
  let b := body req in
  let new : doc :=
    <["joinedAt" := VDate (now req)]>
      (if truthy (b !! "status") then b
       else <["status" := VStr "pending"]> b) in
  post_memberships req db =
  if negb (truthy (b !! "userEmail")) || negb (truthy (b !! "clubId")) then
    (mkAnswer 400 (Basic (Message "Missing required fields.")), db)
  else
    match List.find (live_membership (bson (b !! "userEmail"))
                       (bson (b !! "clubId")))
            (membershipsCollection db) with
    | Some ex => (mkAnswer 409 (Existing ex), db)
    | None =>
        match insertOne_in new (next_oid db) (membershipsCollection db) with
        | Ok (v, c') =>
            (mkAnswer 201 (Basic (Inserted v)),
             bump (set_coll Memberships c' db))
        | Throw =>
            (mkAnswer 500 (Basic (Message "Failed to create membership.")),
             db)
        end
    end.
Proof.
  intros b new.
  unfold post_memberships, try_catch_with, bind, findOne_by, insertOne,
    answer, ret.
  fold b. destruct (negb _ || negb _); [reflexivity|]. simpl.
  destruct (List.find _ (membershipsCollection db)); [reflexivity|].
  fold new.
  destruct (insertOne_in new (next_oid db) (membershipsCollection db))
    as [[v c']|]; reflexivity.
Qed.

(** X12: [POST /memberships] writes the memberships only, never a role
    grant.  It answers 400 when userEmail or clubId is missing or falsy and
    409 with the stored document when the pair has an active or pending
    membership, both without writing.  When it answers 201 the pair had no
    such membership and one document is appended, with joinedAt the time of
    the request and with the status of the body when that is truthy (so a
    body may ask for active directly), pending otherwise. *)
Theorem post_memberships_outcomes (req : Request) (db : DB) :
  let out := post_memberships req db in
  let live :=
    List.find (live_membership (bson (body req !! "userEmail"))
                 (bson (body req !! "clubId")))
      (membershipsCollection db) in
  (∀ m : coll, m ≠ Memberships → get_coll m out.2 = get_coll m db)
  ∧ (code out.1 ≠ 201 → out.2 = db)
  ∧ (truthy (body req !! "userEmail") && truthy (body req !! "clubId")
     = false → code out.1 = 400)
  ∧ (∀ ex, truthy (body req !! "userEmail") && truthy (body req !! "clubId")
           = true → live = Some ex → out.1 = mkAnswer 409 (Existing ex))
  ∧ (code out.1 = 201 →
     live = None
     ∧ ∃ d : doc,
         membershipsCollection out.2 = (membershipsCollection db ++ [d])%list
         ∧ d !! "joinedAt" = Some (VDate (now req))
         ∧ d !! "status"
           = (if truthy (body req !! "status") then body req !! "status"
              else Some (VStr "pending"))
         ∧ ∀ k, k ≠ "joinedAt" → k ≠ "status" → k ≠ "_id" →
             d !! k = body req !! k).
Proof.
  intros out live. unfold out. rewrite post_memberships_cases. fold live.
  destruct (truthy (body req !! "userEmail")) eqn:He;
    destruct (truthy (body req !! "clubId")) eqn:Hc; simpl;
    try (repeat split; (reflexivity || discriminate || contradiction)).
  destruct live as [ex|] eqn:Hl.
  { simpl. split; [reflexivity|]. split; [reflexivity|].
    split; [discriminate|]. split; [by intros ex' _ [= <-]|discriminate]. }
  destruct (insertOne_in _ (next_oid db) (membershipsCollection db))
    as [[v c']|] eqn:Hi; simpl.
  - split; [intros m Hm; by destruct m|]. split; [contradiction|].
    split; [discriminate|]. split; [discriminate|].
    intros _. split; [reflexivity|].
    apply insertOne_in_Ok in Hi as (d & -> & Hd). exists d.
    split; [reflexivity|]. split.
    + rewrite Hd by discriminate. apply lookup_insert_eq.
    + split.
      * rewrite Hd by discriminate. rewrite lookup_insert_ne by discriminate.
        destruct (truthy (body req !! "status")) eqn:Hs; [reflexivity|].
        apply lookup_insert_eq.
      * intros k Hj Hs Hk. rewrite Hd by exact Hk.
        rewrite lookup_insert_ne by congruence.
        destruct (truthy (body req !! "status")); [reflexivity|].
        by rewrite lookup_insert_ne by congruence.
  - split; [reflexivity|]. split; [reflexivity|].
    split; [discriminate|]. split; [discriminate|discriminate].
Qed.

Lemma post_memberships_outcomes_witness :
  code (post_memberships
          (Scenario.request None []
             (<["userEmail" := VStr "bob@x.com"]>
                (<["clubId" := VStr Scenario.c1]> ∅)) 30)
          Scenario.db0).1 = 409
  ∧ code (post_memberships
            (Scenario.request None []
               (<["userEmail" := VStr "bob@x.com"]> ∅) 30)
            Scenario.db0).1 = 400.
Proof.
  split.
  - rewrite (proj1 (proj2 (proj2 (proj2 (post_memberships_outcomes
               (Scenario.request None []
                  (<["userEmail" := VStr "bob@x.com"]>
                     (<["clubId" := VStr Scenario.c1]> ∅)) 30)
               Scenario.db0)))) (Scenario.bob_membership "pending"));
      [reflexivity|reflexivity|vm_compute; reflexivity].
  - apply (proj1 (proj2 (proj2 (post_memberships_outcomes
             (Scenario.request None []
                (<["userEmail" := VStr "bob@x.com"]> ∅) 30)
             Scenario.db0)))).
    reflexivity.
Defined.

Lemma count_where_none (p : doc → bool) (c : list doc) :
  List.find p c = None → count_where p c = 0.
Proof.
  unfold count_where. induction c as [|d c IH]; simpl; [reflexivity|].
  destruct (p d); [discriminate|]. exact IH.
Qed.

Lemma live_membership_strings (e cl : string) (d : doc) :
  is_array (d !! "userEmail") = false → is_array (d !! "clubId") = false →
  live_membership (VStr e) (VStr cl) d = true →
  d !! "userEmail" = Some (VStr e) ∧ d !! "clubId" = Some (VStr cl).
Proof.
  unfold live_membership. intros H1 H2 H.
  apply andb_true_iff in H as [H _]. apply andb_true_iff in H as [He Hc].
  split.
  - destruct (d !! "userEmail") as [[]|]; simpl in *; try discriminate.
    apply String.eqb_eq in He. by subst.
  - destruct (d !! "clubId") as [[]|]; simpl in *; try discriminate.
    apply String.eqb_eq in Hc. by subst.
Qed.

(** X13: [POST /memberships] never gives a pair a second live membership:
    if no pair of strings (userEmail, clubId) has two active or pending
    memberships before, none has after, unless the body gives an array as
    userEmail or clubId. *)
Theorem post_memberships_keeps_live_unique (req : Request) (db : DB) :
  is_array (body req !! "userEmail") = false →
  is_array (body req !! "clubId") = false →
  live_unique (membershipsCollection db) →
  live_unique (membershipsCollection (post_memberships req db).2).
Proof.
  intros Ha1 Ha2 Hu. rewrite post_memberships_cases.
  destruct (negb _ || negb _); [exact Hu|].
  destruct (List.find _ (membershipsCollection db)) eqn:Hf; [exact Hu|].
  destruct (insertOne_in _ (next_oid db) (membershipsCollection db))
    as [[v c']|] eqn:Hi; [|exact Hu].
  apply insertOne_in_Ok in Hi as (d & -> & Hd). simpl.
  assert (Hfield : ∀ k, k ≠ "joinedAt" → k ≠ "status" → k ≠ "_id" →
            d !! k = body req !! k).
  { intros k Hj Hs Hk. rewrite Hd by exact Hk.
    rewrite lookup_insert_ne by congruence.
    destruct (truthy (body req !! "status")); [reflexivity|].
    by rewrite lookup_insert_ne by congruence. }
  intros e cl. specialize (Hu e cl). unfold count_where in *.
  rewrite List.filter_app, length_app. simpl.
  destruct (live_membership (VStr e) (VStr cl) d) eqn:Hl; simpl; [|lia].
  apply live_membership_strings in Hl as [He Hc];
    [| by rewrite Hfield | by rewrite Hfield].
  rewrite Hfield in He, Hc by discriminate.
  rewrite He, Hc in Hf. simpl in Hf.
  pose proof (count_where_none _ _ Hf) as H0. unfold count_where in H0.
  rewrite H0. lia.
Qed.

Lemma live_unique_singleton (d : doc) : live_unique [d].
Proof.
  intros e cl. unfold count_where.
  change (List.filter (live_membership (VStr e) (VStr cl)) [d])
    with (if live_membership (VStr e) (VStr cl) d then [d] else []).
  destruct (live_membership (VStr e) (VStr cl) d); simpl; lia.
Qed.

Lemma post_memberships_keeps_live_unique_witness :
  code (post_memberships Cases.join_eve Scenario.db0).1 = 201
  ∧ length (membershipsCollection
              (post_memberships Cases.join_eve Scenario.db0).2) = 2
  ∧ live_unique
      (membershipsCollection
         (post_memberships Cases.join_eve Scenario.db0).2)
  ∧ code (post_memberships Cases.join_eve
            (post_memberships Cases.join_eve Scenario.db0).2).1 = 409
  ∧ live_unique
      (membershipsCollection
         (post_memberships Cases.join_eve
            (post_memberships Cases.join_eve Scenario.db0).2).2).
Proof.
  assert (H1 : live_unique
                 (membershipsCollection
                    (post_memberships Cases.join_eve Scenario.db0).2)).
  { apply (post_memberships_keeps_live_unique Cases.join_eve Scenario.db0);
      [vm_compute; reflexivity|vm_compute; reflexivity|].
    exact (live_unique_singleton (Scenario.bob_membership "pending")). }
  split; [vm_compute; reflexivity|].
  split; [vm_compute; reflexivity|].
  split; [exact H1|].
  split; [vm_compute; reflexivity|].
  apply (post_memberships_keeps_live_unique Cases.join_eve
           (post_memberships Cases.join_eve Scenario.db0).2);
    [vm_compute; reflexivity|vm_compute; reflexivity|exact H1].
Defined.

(** X14: member approval keeps the statuses of the memberships inside the
    enumeration pending, active, rejected: it writes active or rejected, or
    nothing. *)
Theorem patch_member_status_keeps_statuses_legal (req : Request) (db : DB) :
  Forall legal_status (membershipsCollection db) →
  Forall legal_status
    (membershipsCollection (patch_member_status req db).2).
Proof.
  intros Hl.
  destruct (is_str "active" (body req !! "status")
            || is_str "rejected" (body req !! "status")) eqn:Hv.
  - rewrite patch_member_status_run by exact Hv.
    destruct (update_first _ _ (membershipsCollection db))
      as [[[n c']|]|] eqn:Hu; simpl; try exact Hl.
    assert (Hc' : Forall legal_status c').
    { apply update_first_Ok in Hu as (i & d & Hi & _ & _ & _ & ->).
      apply Forall_insert; [exact Hl|].
      unfold legal_status.
      rewrite (apply_set_lookup_set _ d "status"
                 (bson (body req !! "status")))
        by apply lookup_singleton_eq.
      apply orb_true_iff in Hv as [Hv|Hv]; apply is_str_true in Hv;
        rewrite Hv; simpl; auto. }
    destruct (Nat.ltb 0 n && is_str "active" (body req !! "status"));
      exact Hc'.
  - unfold patch_member_status, try_catch, reply, ret. rewrite Hv. exact Hl.
Qed.

Lemma patch_member_status_keeps_statuses_legal_witness :
  Forall legal_status
    (membershipsCollection
       (patch_member_status (Scenario.activate_bob 7) Scenario.db0).2).
Proof.
  apply (patch_member_status_keeps_statuses_legal
           (Scenario.activate_bob 7) Scenario.db0).
  constructor; [|constructor]. left. reflexivity.
Defined.

(** X22: member approval writes the memberships and nothing else: users,
    clubs, applications, role grants and the id counter are as before,
    whatever the request.  When it asks for active and the membership of the
    pair has another status, that membership is stored active and the
    answer is the 500 of the [catch]: the upsert of the grant is not
    reached. *)
Theorem patch_member_status_writes_memberships_only (req : Request)
    (db : DB) :
  (usersCollection (patch_member_status req db).2 = usersCollection db
   ∧ clubsCollection (patch_member_status req db).2 = clubsCollection db
   ∧ clubManagersCollection (patch_member_status req db).2
     = clubManagersCollection db
   ∧ club_roles (patch_member_status req db).2 = club_roles db
   ∧ next_oid (patch_member_status req db).2 = next_oid db)
  ∧ (∀ m : doc,
       body req !! "status" = Some (VStr "active") →
       findOne_in (member_key (route_param req "id") (route_param req "email"))
         (membershipsCollection db) = Some m →
       m !! "status" ≠ Some (VStr "active") →
       ∃ i : nat,
         membershipsCollection db !! i = Some m
         ∧ patch_member_status req db
           = (mkResponse 500 (Message "Failed to update member status"),
              set_coll Memberships
                (<[i := <["status" := VStr "active"]> m]>
                   (membershipsCollection db)) db)).
Proof.
  split.
  - destruct (is_str "active" (body req !! "status")
              || is_str "rejected" (body req !! "status")) eqn:Hv.
    + rewrite patch_member_status_run by exact Hv.
      destruct (update_first _ _ (membershipsCollection db))
        as [[[n c']|]|]; simpl; try (repeat split; reflexivity).
      destruct (Nat.ltb 0 n && is_str "active" (body req !! "status"));
        repeat split; reflexivity.
    + unfold patch_member_status, try_catch, reply, ret. rewrite Hv.
      repeat split; reflexivity.
  - intros m Hst Hf Hm.
    rewrite patch_member_status_run by (by rewrite Hst).
    rewrite Hst. simpl.
    destruct (update_first_found _ {[ "status" := VStr "active" ]} _ m Hf)
      as (i & Hi & ->); [reflexivity|].
    exists i. split; [exact Hi|].
    assert (Hch : changes {[ "status" := VStr "active" ]} m = true).
    { unfold changes. apply negb_true_iff, bool_decide_eq_false_2.
      intros HF. apply Hm. exact (HF "status" (VStr "active")
                                    (lookup_singleton_eq _ _)). }
    rewrite Hch. simpl. unfold apply_set.
    by rewrite <- insert_union_singleton_l.
Qed.

Lemma patch_member_status_writes_memberships_only_witness :
  patch_member_status (Scenario.activate_bob 7) Scenario.db0
  = (mkResponse 500 (Message "Failed to update member status"),
     set_coll Memberships [Scenario.bob_membership "active"] Scenario.db0).
Proof.
  destruct (proj2 (patch_member_status_writes_memberships_only
                     (Scenario.activate_bob 7) Scenario.db0)
              (Scenario.bob_membership "pending"))
    as (i & Hi & ->);
    [vm_compute; reflexivity|vm_compute; reflexivity|discriminate|].
  destruct i as [|i]; [vm_compute; reflexivity|].
  vm_compute in Hi. destruct i; discriminate Hi.
Defined.

(** ** Manager applications *)



(** X16: applying keeps the emails of the applications unique: unless the
    body gives an array as email, no string is the email of two
    applications after [POST /club-managers] if none was before. *)
Theorem post_club_managers_keeps_emails_unique (req : Request) (db : DB) :
  is_array (body req !! "email") = false →
  unique_by "email" (clubManagersCollection db) →
  unique_by "email"
    (clubManagersCollection (post_club_managers req db).2).
Proof.
  intros Harr Hu.
  unfold post_club_managers, try_catch, bind, findOne, insertOne, reply, ret.
  destruct (negb _ || negb _); [exact Hu|]. simpl.
  destruct (findOne_in _ (clubManagersCollection db)) as [ex|] eqn:Hf.
  - destruct (is_str "rejected" (ex !! "status")).
    + assert (Hem :
        (λ d : doc, d !! "email")
          <$> clubManagersCollection
                (updateOne ClubManagers
                   {[ "email" := bson (body req !! "email") ]}
                   (reapply_updateDoc (body req) (now req)) ∅ false db).2
        = (λ d : doc, d !! "email") <$> clubManagersCollection db).
      { apply (updateOne_keeps (λ d : doc, d !! "email") ClubManagers _ _ db)
          with (m := ClubManagers).
        intros d. apply apply_set_lookup_other.
        by rewrite reapply_updateDoc_lookup. }
      destruct (updateOne ClubManagers _ _ ∅ false db) as [[r|] db'];
        simpl in *; intros s;
        rewrite (count_matching_field "email" (VStr s) _ _ Hem); apply Hu.
    + destruct (is_str "pending" (ex !! "status")); exact Hu.
  - destruct (insertOne_in _ (next_oid db) (clubManagersCollection db))
      as [[v c']|] eqn:Hi; [|exact Hu].
    apply insertOne_in_Ok in Hi as (d & -> & Hd). simpl.
    assert (He : d !! "email" = body req !! "email").
    { rewrite Hd by discriminate. by rewrite !lookup_insert_ne. }
    apply unique_by_snoc; [by rewrite He|by rewrite He|exact Hu].
Qed.

Lemma post_club_managers_keeps_emails_unique_witness :
  unique_by "email"
    (clubManagersCollection
       (post_club_managers Scenario.reapply_alice
          (Scenario.db_application "rejected")).2).
Proof.
  apply (post_club_managers_keeps_emails_unique Scenario.reapply_alice
           (Scenario.db_application "rejected")).
  - reflexivity.
  - change (clubManagersCollection (Scenario.db_application "rejected"))
      with ([] ++ [<["status" := VStr "rejected"]>
                     Scenario.alice_application])%list.
    apply unique_by_snoc; [vm_compute; reflexivity|reflexivity|].
    apply unique_by_nil.
Defined.

(** An update without upsert keeps the length of the collection and
    rewrites at most one document, to [$set] over what it was. *)
Lemma updateOne_elements (n : coll) (f s : doc) (db : DB) (i : nat)
    (d' : doc) :
  get_coll n (updateOne n f s ∅ false db).2 !! i = Some d' →
  get_coll n db !! i = Some d'
  ∨ ∃ d, get_coll n db !! i = Some d ∧ d' = apply_set s d.
Proof.
  unfold updateOne, updateOne_in.
  destruct (update_first f s (get_coll n db)) as [[[k c']|]|] eqn:Hu; simpl.
  - apply update_first_Ok in Hu as (j & d & Hj & _ & _ & _ & ->).
    assert (Hget : ∀ c, get_coll n (set_coll n c db) = c)
      by (intros c; by destruct n).
    rewrite Hget. destruct (decide (i = j)) as [->|Hne].
    + rewrite list_lookup_insert_eq by apply (lookup_lt_Some _ _ _ Hj).
      intros [= <-]. right. by exists d.
    + rewrite list_lookup_insert_ne by congruence. by left.
  - by left.
  - assert (Hget : ∀ c, get_coll n (set_coll n c db) = c)
      by (intros c; by destruct n).
    rewrite Hget. by left.
Qed.

(** The states [PATCH /club-managers/:id] can leave. *)
Lemma patch_club_manager_state (req : Request) (db : DB) :
  (patch_club_manager req db).2 = db
  ∨ ∃ (oid : N) (db1 : DB),
      db1 = (updateOne ClubManagers {[ "_id" := VOid oid ]} (body req) ∅
               false db).2
      ∧ ((patch_club_manager req db).2 = db1
         ∨ (is_str "approved" (body req !! "status") = true
            ∧ ∃ q : value,
                (patch_club_manager req db).2
                = (updateOne Users {[ "email" := q ]}
                     {[ "role" := VStr "club_manager" ]} ∅ false db1).2)).
Proof.
  unfold patch_club_manager, try_catch, bind, lift, ret.
  destruct (new_ObjectId (route_param req "id")) as [oid|]; [|by left].
  right. exists oid. eexists. split; [reflexivity|].
  destruct (updateOne ClubManagers _ _ ∅ false db) as [[r|] db1]; simpl;
    [|by left].
  destruct (is_str "approved" (body req !! "status")); [|by left].
  unfold promote_applicant, bind, findOne, ret.
  destruct (findOne_in _ (get_coll ClubManagers db1)) as [app|]; [|by left].
  destruct (truthy (app !! "email")); [|by left].
  right. split; [reflexivity|]. exists (bson (app !! "email")).
  destruct (updateOne Users _ _ ∅ false db1) as [[r'|] db2]; reflexivity.
Qed.

(** X17: approving or rejecting an application writes the applications and
    at most the role of one user: clubs, memberships and role grants are
    untouched, every user keeps every field other than the role, a user
    whose document changed has role club_manager, and when the status of
    the body is not exactly approved the users are untouched. *)
Theorem patch_club_manager_writes_roles_only (req : Request) (db : DB) :
  let db' := (patch_club_manager req db).2 in
  (∀ m : coll, m ≠ ClubManagers → m ≠ Users →
     get_coll m db' = get_coll m db)
  ∧ (∀ k : string, k ≠ "role" →
       (λ d : doc, d !! k) <$> usersCollection db'
       = (λ d : doc, d !! k) <$> usersCollection db)
  ∧ (∀ (i : nat) (u' : doc), usersCollection db' !! i = Some u' →
       usersCollection db !! i = Some u'
       ∨ u' !! "role" = Some (VStr "club_manager"))
  ∧ (is_str "approved" (body req !! "status") = false →
     usersCollection db' = usersCollection db).
Proof.
  intros db'. unfold db'.
  destruct (patch_club_manager_state req db)
    as [->|(oid & db1 & Hdb1 & [->|(Happ & q & ->)])].
  - repeat split; try reflexivity. intros i u' H. by left.
  - subst db1. split; [|split; [|split]].
    + intros m Hm _. apply updateOne_other. congruence.
    + intros k _. by rewrite (updateOne_other ClubManagers Users).
    + intros i u' H. left.
      by rewrite (updateOne_other ClubManagers Users) in H.
    + intros _. by apply (updateOne_other ClubManagers Users).
  - assert (Husers : usersCollection db1 = usersCollection db)
      by (subst db1; by apply (updateOne_other ClubManagers Users)).
    split; [|split; [|split]].
    + intros m Hm Hu. rewrite updateOne_other by congruence.
      subst db1. apply updateOne_other. congruence.
    + intros k Hk. rewrite <- Husers.
      apply (updateOne_keeps (λ d : doc, d !! k) Users _ _ db1)
        with (m := Users).
      intros d. apply apply_set_lookup_other.
      by rewrite lookup_singleton_ne.
    + intros i u' H.
      apply (updateOne_elements Users) in H as [H|(d & Hd & ->)].
      * left. by rewrite <- Husers.
      * right. apply apply_set_lookup_set. apply lookup_singleton_eq.
    + rewrite Happ. discriminate.
Qed.

(** ** Events, registrations, payments *)

(** X18: an event update drops [_id] and [clubId] from the body before the
    [$set].  When what is left is a plain [$set], every event keeps its id
    and its club, whatever the body holds, and a body that names an [_id]
    cannot make the update throw: the answer is 200 whenever the id of the
    path is an ObjectId, and 500 with nothing written when it is not. *)
Theorem put_event_keeps_identity (req : Request) (fresh : N)
    (events : list doc) :
  plain_set (delete "clubId" (delete "_id" (body req))) = true →
  ∃ out : Response * list doc,
    put_event req fresh events = Some out
    ∧ (λ d : doc, (d !! "_id", d !! "clubId")) <$> out.2
      = (λ d : doc, (d !! "_id", d !! "clubId")) <$> events
    ∧ ((∃ r, out.1 = mkResponse 200 (Updated r))
       ∨ (new_ObjectId (route_param req "id") = Throw
          ∧ out = (mkResponse 500 (Message "Failed to update event."),
                   events))).
Proof.
  intros Hplain. unfold put_event, updateOne_in. rewrite Hplain. simpl.
  eexists. split; [reflexivity|].
  destruct (new_ObjectId (route_param req "id")) as [oid|];
    [|split; [reflexivity|by right]].
  set (s := delete "clubId" (delete "_id" (body req)) : doc).
  assert (Hid : s !! "_id" = None).
  { unfold s. rewrite lookup_delete_ne by discriminate.
    apply lookup_delete_eq. }
  assert (Hclub : s !! "clubId" = None) by apply lookup_delete_eq.
  pose proof (update_first_no_throw {[ "_id" := VOid oid ]} s events Hid)
    as Hnt.
  destruct (update_first {[ "_id" := VOid oid ]} s events)
    as [[[n c']|]|] eqn:Hu; simpl.
  - split; [|left; by eexists].
    apply (update_first_keeps (λ d : doc, (d !! "_id", d !! "clubId"))
             {[ "_id" := VOid oid ]} s events n c'); [|exact Hu].
    intros d. by rewrite !apply_set_lookup_other.
  - contradiction.
  - split; [reflexivity|left; by eexists].
Qed.

Lemma put_event_keeps_identity_witness :
  put_event Cases.retitle_event 50 [Cases.event_e1]
  = Some (mkResponse 200 (Updated (mkUpdateResult 1 1 0 None)),
          [<["eventTitle" := VStr "Closed day"]> Cases.event_e1])
  ∧ ∃ out : Response * list doc,
      put_event Cases.retitle_event 50 [Cases.event_e1] = Some out
      ∧ (λ d : doc, (d !! "_id", d !! "clubId")) <$> out.2
        = [(Some (VOid 225), Some (VStr Scenario.c1))].
Proof.
  split; [vm_compute; reflexivity|].
  destruct (put_event_keeps_identity Cases.retitle_event 50
              [Cases.event_e1]) as (out & Hout & Hkeep & _);
    [vm_compute; reflexivity|].
  exists out. split; [exact Hout|]. rewrite Hkeep. vm_compute. reflexivity.
Defined.

(** What an insert with the document [new] gives. *)
Lemma insert_outcome (new : doc) (fresh : N) (c : list doc) :
  (∃ (d : doc) (id : value),
     insertOne_in new fresh c = Ok (id, (c ++ [d])%list)
     ∧ ∀ k, k ≠ "_id" → d !! k = new !! k)
  ∨ (insertOne_in new fresh c = Throw ∧ is_Some (new !! "_id")).
Proof.
  destruct (insertOne_in new fresh c) as [[v c']|] eqn:Hi.
  - left. apply insertOne_in_Ok in Hi as (d & -> & Hd). by exists d, v.
  - right. split; [reflexivity|]. by apply insertOne_in_Throw in Hi.
Qed.






Lemma verifyClubPermission_decision_witness :
  verifyClubPermission
    (mkRequest None {[ "id" := Scenario.c1 ]} ∅
       (Some {[ "email" := VStr "alice@x.com" ]}) 2) Scenario.db0
  = Next (mkRequest None {[ "id" := Scenario.c1 ]} ∅
            (Some {[ "email" := VStr "alice@x.com" ]}) 2)
  ∧ verifyClubPermission
      (mkRequest None {[ "id" := Scenario.c1 ]} ∅
         (Some {[ "email" := VStr "mallory@x.com" ]}) 2) Scenario.db0
    = Reply (mkResponse 403 (Message
        "Forbidden: You are not the manager of this club.")).
Proof.
  split.
  - pose proof (verifyClubPermission_decision
                  (mkRequest None {[ "id" := Scenario.c1 ]} ∅
                     (Some {[ "email" := VStr "alice@x.com" ]}) 2)
                  Scenario.db0 {[ "email" := VStr "alice@x.com" ]}
                  "alice@x.com" Scenario.c1 193%N
                  eq_refl eq_refl eq_refl eq_refl) as H.
    vm_compute in H. vm_compute. exact H.
  - pose proof (verifyClubPermission_decision
                  (mkRequest None {[ "id" := Scenario.c1 ]} ∅
                     (Some {[ "email" := VStr "mallory@x.com" ]}) 2)
                  Scenario.db0 {[ "email" := VStr "mallory@x.com" ]}
                  "mallory@x.com" Scenario.c1 193%N
                  eq_refl eq_refl eq_refl eq_refl) as H.
    vm_compute in H. vm_compute. exact H.
Defined.

(** ** What a club update writes *)

Lemma club_updateDoc_text (b : doc) (k : string) :
  k ∈ ["status"; "clubName"; "description"; "location"; "category";
       "bannerImage"] →
  club_updateDoc b !! k = if truthy (b !! k) then b !! k else None.
Proof.
  intros Hk. unfold club_updateDoc.
  assert (Hset : ∀ (s : doc), s !! k = None →
            set_when (truthy (b !! k)) k (b !! k) s !! k
            = if truthy (b !! k) then b !! k else None).
  { intros s Hs. unfold set_when. destruct (truthy (b !! k)) eqn:Ht;
      [|exact Hs].
    rewrite lookup_insert_eq. destruct (b !! k); [reflexivity|discriminate]. }
  repeat (apply elem_of_cons in Hk as [->|Hk];
          [ repeat (rewrite set_when_lookup_ne by discriminate);
            apply Hset;
            repeat (rewrite set_when_lookup_ne by discriminate);
            apply lookup_empty | ]).
  by apply elem_of_nil in Hk.
Qed.

Lemma club_updateDoc_fee (b : doc) :
  club_updateDoc b !! "membershipFee" = b !! "membershipFee".
Proof.
  unfold club_updateDoc. unfold set_when at 1.
  destruct (b !! "membershipFee") as [v|] eqn:Hf.
  - rewrite bool_decide_eq_true_2 by (by eexists). apply lookup_insert_eq.
  - rewrite bool_decide_eq_false_2 by (by intros [v Hv]).
    repeat (rewrite set_when_lookup_ne by discriminate). apply lookup_empty.
Qed.

(** X23: on the first club stored with the id of the path, a club update
    writes status, clubName, description, location, category and
    bannerImage each exactly when the body gives a truthy value for it (an
    empty string leaves the stored value), writes membershipFee whenever the
    body has the field (0 and null included), and leaves every other field
    as stored; the answer is 200. *)
Theorem patch_club_writes (req : Request) (db : DB) (oid : N) (c : doc) :
  new_ObjectId (route_param req "id") = Ok oid →
  findOne_in {[ "_id" := VOid oid ]} (clubsCollection db) = Some c →
  ∃ (i : nat) (c' : doc) (r : UpdateResult),
    clubsCollection db !! i = Some c
    ∧ patch_club req db
      = (mkResponse 200 (Updated r),
         set_coll Clubs (<[i := c']> (clubsCollection db)) db)
    ∧ (∀ k, k ∈ ["status"; "clubName"; "description"; "location";
                 "category"; "bannerImage"] →
         c' !! k = if truthy (body req !! k) then body req !! k else c !! k)
    ∧ c' !! "membershipFee"
      = match body req !! "membershipFee" with
        | Some fee => Some fee
        | None => c !! "membershipFee"
        end
    ∧ (∀ k, k ∉ ["status"; "clubName"; "description"; "location";
                 "category"; "bannerImage"; "membershipFee"] →
         c' !! k = c !! k).
Proof.
  intros Hid Hf.
  destruct (updateOne_found Clubs {[ "_id" := VOid oid ]}
              (club_updateDoc (body req)) db c Hf) as (i & Hi & Hu).
  { apply club_updateDoc_fields. intros H%list_elem_of_In. simpl in H.
    intuition discriminate. }
  exists i, (apply_set (club_updateDoc (body req)) c). eexists.
  split; [exact Hi|]. split.
  { unfold patch_club, try_catch, bind, lift, ret. rewrite Hid, Hu.
    reflexivity. }
  split; [|split].
  - intros k Hk. pose proof (club_updateDoc_text (body req) k Hk) as Hl.
    destruct (truthy (body req !! k)) eqn:Ht.
    + destruct (body req !! k) as [v|]; [|discriminate].
      by apply apply_set_lookup_set.
    + by apply apply_set_lookup_other.
  - pose proof (club_updateDoc_fee (body req)) as Hl.
    destruct (body req !! "membershipFee") as [v|].
    + by apply apply_set_lookup_set.
    + by apply apply_set_lookup_other.
  - intros k Hk. apply apply_set_lookup_other.
    by apply club_updateDoc_fields.
Qed.

Lemma patch_club_writes_witness :
  ∃ (i : nat) (c' : doc) (r : UpdateResult),
    clubsCollection Scenario.db0 !! i = Some Scenario.club_c1
    ∧ patch_club Cases.zero_fee_update Scenario.db0
      = (mkResponse 200 (Updated r),
         set_coll Clubs (<[i := c']> (clubsCollection Scenario.db0))
           Scenario.db0)
    ∧ c' !! "clubName" = Some (VStr "Chess")
    ∧ c' !! "membershipFee" = Some (VNum 0).
Proof.
  destruct (patch_club_writes Cases.zero_fee_update Scenario.db0 193%N
              Scenario.club_c1) as (i & c' & r & Hi & Hp & Ht & Hf & _);
    [vm_compute; reflexivity|vm_compute; reflexivity|].
  exists i, c', r. split; [exact Hi|]. split; [exact Hp|]. split.
  - rewrite (Ht "clubName") by (right; left). reflexivity.
  - rewrite Hf. reflexivity.
Defined.
